(** * Yatra register: persistence and storage-pressure recovery

    A shallow embedding of the record store of the application:
    [services/db.ts] (the IndexedDB tier, [dbService]) and the handlers of
    [App.tsx] that coordinate it with the LocalStorage backup
    ([handleSaveEntry], [handleDeleteEntry], [loadData], [handleSaveTextOnly],
    [handleSubmit]).

    Promises and exceptions are a result type [Settled]; the two tiers, the
    React state of [App] and the list of tier operations issued so far are one
    explicit state [Sys], threaded by a small state-and-exception monad [M].
    Which tier operation fails, and with which error value, is decided by the
    environment: it is the parameter [Faults] of every operation.  Numbers are
    integers ([Z]); strings are byte strings.  Confirmation dialogs, view
    switches and loading flags are left out: they do not touch the tiers.

    Further parts follow the same lines: the background images
    ([saveBackground], [clearBackgrounds], [handleImageUpload],
    [handleClearBackgrounds]), the actions of the storage recovery modal
    ([handleOptimizeImages], [handleDeleteOld], [refreshData]), the filters
    of the ledger view, the face search ([findMatchingFace], [handleScan]),
    the generated plan ([generateRitualPlan], [handleAiGenerate]) and the
    signature pad.  What the generative model answers and what the platform
    makes of a date are parameters. *)

From Stdlib Require Import ZArith List String Ascii Bool Lia.
From Stdlib Require Import Permutation Sorted DecimalString.
Import ListNotations.
Open Scope Z_scope.

(* ================================================================== *)
(** * Strings: the two [String.prototype] methods the classifier uses  *)
(* ================================================================== *)

Module JsString.

(** [toLowerCase] on one code unit.  Only the letters A-Z change; no
    character outside ASCII lower-cases to one of the letters of
    [quota], so bytes above 127 are left alone. *)
Definition lowerChar (c : ascii) : ascii :=
  let n := N_of_ascii c in
  if ((65 <=? n) && (n <=? 90))%N then ascii_of_N (n + 32) else c.

Fixpoint toLowerCase (s : string) : string :=
  match s with
  | EmptyString => EmptyString
  | String c s' => String (lowerChar c) (toLowerCase s')
  end.

Fixpoint startsWith (s p : string) : bool :=
  match p, s with
  | EmptyString, _ => true
  | String _ _, EmptyString => false
  | String a p', String b s' => Ascii.eqb a b && startsWith s' p'
  end.

(** [s.includes(p)]: [p] occurs somewhere in [s]. *)
Fixpoint includes (s p : string) : bool :=
  startsWith s p ||
  match s with
  | EmptyString => false
  | String _ s' => includes s' p
  end.

(** Two code units that are the same letter up to case. *)
Definition sameLetter (a b : ascii) : Prop :=
  a = b \/ lowerChar a = b \/ a = lowerChar b.

Inductive sameWord : string -> string -> Prop :=
| sameWord_nil : sameWord EmptyString EmptyString
| sameWord_cons a b s t :
    sameLetter a b -> sameWord s t -> sameWord (String a s) (String b t).

(** The wording of the specification: the text contains the word,
    whatever the case of its letters. *)
Definition containsIgnoringCase (text word : string) : Prop :=
  exists before w after,
    text = (before ++ w ++ after)%string /\ sameWord w word.

End JsString.

(* ================================================================== *)
(** * Data model ([types.ts])                                          *)
(* ================================================================== *)

Record ClientEntry := mkClientEntry {
  id : Z;
  uniqueCode : string;
  clientName : string;
  phone : string;
  address : string;
  servicePlan : string;
  paymentDetails : string;
  clientPhoto : option string;      (* clientPhoto?: string *)
  signatureImage : option string;   (* string | null *)
  timestamp : Z
}.

Record BackgroundImage := mkBackgroundImage {
  bgId : string;
  dataUrl : string
}.

(** A value that a tier throws or rejects with.  [isDOMException] is the
    outcome of [e instanceof DOMException]; [code], [name] and [message]
    are the properties of that name ([None]: [undefined]). *)
Record Failure := mkFailure {
  isDOMException : bool;
  code : option Z;
  name : option string;
  message : option string
}.

(** [new Error(msg)] *)
Definition mkError (msg : string) : Failure :=
  mkFailure false None (Some "Error"%string) (Some msg).

Definition optZ_is (o : option Z) (n : Z) : bool :=
  match o with Some k => k =? n | None => false end.

Definition optString_is (o : option string) (s : string) : bool :=
  match o with Some t => String.eqb t s | None => false end.

(** [{ ...entry, clientPhoto: undefined }] *)
Definition withoutPhoto (entry : ClientEntry) : ClientEntry :=
  mkClientEntry (id entry) (uniqueCode entry) (clientName entry) (phone entry)
    (address entry) (servicePlan entry) (paymentDetails entry)
    None (signatureImage entry) (timestamp entry).

(** Truthiness of [entry.clientPhoto]: a string that is not empty. *)
Definition hasPhoto (entry : ClientEntry) : bool :=
  match clientPhoto entry with
  | Some EmptyString => false
  | Some _ => true
  | None => false
  end.

(* ================================================================== *)
(** * The quota classifier ([App.tsx], lines 11-24 and 174, 192)       *)
(* ================================================================== *)

Definition isQuotaError (e : Failure) : bool :=
  isDOMException e &&
  (optZ_is (code e) 22 ||
   optZ_is (code e) 1014 ||
   optString_is (name e) "QuotaExceededError" ||
   optString_is (name e) "NS_ERROR_DOM_QUOTA_REACHED").

(** [err.message?.toLowerCase().includes('quota')], as a condition. *)
Definition messageMentionsQuota (e : Failure) : bool :=
  match message e with
  | Some m => JsString.includes (JsString.toLowerCase m) "quota"
  | None => false
  end.

(** The condition of both [catch] blocks of [handleSaveEntry]. *)
Definition isQuotaFailure (e : Failure) : bool :=
  isQuotaError e || messageMentionsQuota e.

(** The wording of the specification for a recognized code or name. *)
Definition carriesQuotaCodeOrName (e : Failure) : Prop :=
  code e = Some 22 \/ code e = Some 1014 \/
  name e = Some "QuotaExceededError"%string \/
  name e = Some "NS_ERROR_DOM_QUOTA_REACHED"%string.

Definition messageContainsQuota (e : Failure) : Prop :=
  exists m, message e = Some m /\ JsString.containsIgnoringCase m "quota".

(* ================================================================== *)
(** * The object store [clients] of the Primary tier                   *)
(* ================================================================== *)

(** Records in ascending key order ([keyPath: 'id']), as [getAll] and a
    cursor deliver them. *)
Definition Store := list ClientEntry.

Module Idb.

(** [store.put(value)]: insert, or replace the record of the same key. *)
Fixpoint put (c : ClientEntry) (s : Store) : Store :=
  match s with
  | [] => [c]
  | x :: s' =>
      if id c <? id x then c :: s
      else if id c =? id x then c :: s'
      else x :: put c s'
  end.

(** [store.delete(key)], and [cursor.delete()] at a record of that key. *)
Definition delete (k : Z) (s : Store) : Store :=
  filter (fun x => negb (id x =? k)) s.

(** Keys strictly ascending: what an object store guarantees. *)
Fixpoint ascending (s : Store) : bool :=
  match s with
  | [] => true
  | x :: s' =>
      match s' with
      | [] => true
      | y :: _ => (id x <? id y) && ascending s'
      end
  end.

End Idb.

(** [Array.prototype.sort(compare)]: a stable sort; a later element moves
    in front of an earlier one only when [compare earlier later] is
    positive. *)
Fixpoint sortInsert {A : Type} (compare : A -> A -> Z) (x : A) (l : list A)
  : list A :=
  match l with
  | [] => [x]
  | y :: l' =>
      if compare x y <=? 0 then x :: l else y :: sortInsert compare x l'
  end.

Fixpoint arraySort {A : Type} (compare : A -> A -> Z) (l : list A) : list A :=
  match l with
  | [] => []
  | x :: l' => sortInsert compare x (arraySort compare l')
  end.

(** [(a, b) => b.timestamp - a.timestamp] *)
Definition newestFirst (a b : ClientEntry) : Z := timestamp b - timestamp a.

(* ================================================================== *)
(** * State, environment and the monad of asynchronous handlers        *)
(* ================================================================== *)

(** Operations issued to the tiers, whether they succeed or not.  The
    program keeps no such record: the [journal] of the state below is there
    to say which tier a handler went to, and how often. *)
Inductive TierOp :=
| PrimaryOpen
| PrimaryPut (c : ClientEntry)
| PrimaryGetAll
| PrimaryDelete (k : Z)
| PrimaryCursor
| PrimaryBgGetAll
| FallbackGet
| FallbackSet (l : list ClientEntry).

Definition isFallbackOp (op : TierOp) : bool :=
  match op with
  | FallbackGet | FallbackSet _ => true
  | _ => false
  end.

Definition isPrimaryPut (op : TierOp) : bool :=
  match op with PrimaryPut _ => true | _ => false end.

Record Tiers := mkTiers {
  clients : Store;                                (* object store 'clients' *)
  backgrounds : option (list BackgroundImage);    (* 'backgrounds', if it exists *)
  backup : option (list ClientEntry)              (* localStorage 'yatra_entries_backup' *)
}.

(** The [useState] cells of [App] that the handlers write, and what the
    user is shown ([alert]) or the console is told. *)
Record Ui := mkUi {
  entries : list ClientEntry;
  bgImages : list BackgroundImage;
  failedEntry : option ClientEntry;
  showStorageModal : bool;
  alerts : list string;
  console : list string
}.

Record Sys := mkSys {
  tiers : Tiers;
  ui : Ui;
  journal : list TierOp
}.

(** [App] as first rendered. *)
Definition initialUi : Ui := mkUi [] [] None false [] [].

(** The page is loaded again over the same stored data. *)
Definition reload (s : Sys) : Sys := mkSys (tiers s) initialUi (journal s).

Inductive OpenOutcome :=
| OpenUnsupported                 (* no window.indexedDB *)
| OpenRequestError                (* request.onerror *)
| OpenThrows (e : Failure)        (* indexedDB.open throws *)
| OpenOk.

(** How a write transaction of the Primary tier fails.  The promise
    around it listens to [transaction.oncomplete], to
    [transaction.onerror] (and, in [saveClient], to [request.onerror]) and
    to what the calls throw; it does not listen to [transaction.onabort]. *)
Inductive WriteFailure :=
| Reported (e : Failure)
    (* an error event reaches a handler, or a call throws inside [try]:
       the promise is rejected with [e], the value that handler reads
       ([request.error] in [saveClient], [transaction.error] elsewhere) *)
| Aborted.
    (* the transaction aborts and no error event is fired, as when the
       commit fails for want of room on the disk: no handler runs and
       the promise is never settled *)

(** What the environment makes of each tier operation: [None] lets it
    succeed, [Some _] makes it fail (a write may fail or not depending on
    what is written).  A failed operation leaves its tier as it was.  The
    decisions hold for one run of a handler; two handlers run one after
    the other each have their own. *)
Record Faults := mkFaults {
  dbOpen : OpenOutcome;
  putFault : ClientEntry -> option WriteFailure;
  getAllFault : option Failure;
  deleteFault : Z -> option WriteFailure;
  cursorFault : option Failure;
  bgGetAllFault : option Failure;
  lsGetFault : option Failure;                    (* getItem or JSON.parse throws *)
  lsSetFault : list ClientEntry -> option Failure (* setItem throws *)
}.

(** What comes of an [async] function: its promise is fulfilled, it is
    rejected, or it is never settled and the code waiting for it is not
    resumed. *)
Inductive Settled (A : Type) : Type :=
| Resolved (a : A)
| Rejected (e : Failure)
| Pending.
Arguments Resolved {A} a.
Arguments Rejected {A} e.
Arguments Pending {A}.

Definition M (A : Type) : Type := Sys -> Settled A * Sys.

Definition ret {A} (a : A) : M A := fun s => (Resolved a, s).
Definition throw {A} (e : Failure) : M A := fun s => (Rejected e, s).
Definition never {A} : M A := fun s => (Pending, s).

(** [await]: a rejection skips the continuation, and so does a promise
    that is never settled. *)
Definition bind {A B} (m : M A) (k : A -> M B) : M B :=
  fun s =>
    match m s with
    | (Resolved a, s') => k a s'
    | (Rejected e, s') => (Rejected e, s')
    | (Pending, s') => (Pending, s')
    end.

(** [try { body } catch (e) { handler e }] around awaited code. *)
Definition tryCatch {A} (body : M A) (handler : Failure -> M A) : M A :=
  fun s =>
    match body s with
    | (Resolved a, s') => (Resolved a, s')
    | (Rejected e, s') => handler e s'
    | (Pending, s') => (Pending, s')
    end.

Declare Scope js_scope.
Delimit Scope js_scope with js.
Notation "x <- m ;; k" := (bind m (fun x => k))
  (at level 61, m at next level, right associativity) : js_scope.
Notation "m ;; k" := (bind m (fun _ => k))
  (at level 61, right associativity) : js_scope.
Open Scope js_scope.

Definition issue (op : TierOp) : M unit :=
  fun s => (Resolved tt, mkSys (tiers s) (ui s) (journal s ++ [op])).

Definition getTiers : M Tiers := fun s => (Resolved (tiers s), s).

Definition setTiers (t : Tiers) : M unit :=
  fun s => (Resolved tt, mkSys t (ui s) (journal s)).

Definition modifyUi (f : Ui -> Ui) : M unit :=
  fun s => (Resolved tt, mkSys (tiers s) (f (ui s)) (journal s)).

Definition setEntries (f : list ClientEntry -> list ClientEntry) : M unit :=
  modifyUi (fun u => mkUi (f (entries u)) (bgImages u) (failedEntry u)
                          (showStorageModal u) (alerts u) (console u)).

Definition setBgImages (l : list BackgroundImage) : M unit :=
  modifyUi (fun u => mkUi (entries u) l (failedEntry u)
                          (showStorageModal u) (alerts u) (console u)).

Definition setFailedEntry (e : option ClientEntry) : M unit :=
  modifyUi (fun u => mkUi (entries u) (bgImages u) e
                          (showStorageModal u) (alerts u) (console u)).

Definition setShowStorageModal (b : bool) : M unit :=
  modifyUi (fun u => mkUi (entries u) (bgImages u) (failedEntry u)
                          b (alerts u) (console u)).

Definition alert (msg : string) : M unit :=
  modifyUi (fun u => mkUi (entries u) (bgImages u) (failedEntry u)
                          (showStorageModal u) (alerts u ++ [msg]) (console u)).

Definition consoleLog (msg : string) : M unit :=
  modifyUi (fun u => mkUi (entries u) (bgImages u) (failedEntry u)
                          (showStorageModal u) (alerts u) (console u ++ [msg])).

(** A tier operation under the environment's decision. *)
Definition guarded (fault : option Failure) : M unit :=
  match fault with
  | Some e => throw e
  | None => ret tt
  end.

(** The promise around a write transaction, under the environment's
    decision: [resolve] on [oncomplete], [reject] on an error event or a
    throw, and neither when the transaction only aborts. *)
Definition committed (fault : option WriteFailure) : M unit :=
  match fault with
  | None => ret tt
  | Some (Reported e) => throw e
  | Some Aborted => never
  end.

(** [try { const a = await awaited; return returned a } catch (e) { handler e }]
    in an [async] function: the promise [returned a] is handed back without
    [await], so it settles after the [try] block is left and the handler
    sees the failures of [awaited] only. *)
Definition tryAwaitThenReturn {A B} (awaited : M A) (returned : A -> M B)
  (handler : Failure -> M B) : M B :=
  fun s =>
    match awaited s with
    | (Resolved a, s') => returned a s'
    | (Rejected e, s') => handler e s'
    | (Pending, s') => (Pending, s')
    end.

(* ================================================================== *)
(** * [services/db.ts]                                                 *)
(* ================================================================== *)

(** What the promise of [openDB] is rejected with, if it is. *)
Definition openFailure (fx : Faults) : option Failure :=
  match dbOpen fx with
  | OpenUnsupported =>
      Some (mkError "IndexedDB is not supported in this browser environment.")
  | OpenRequestError => Some (mkError "Failed to open database.")
  | OpenThrows e => Some e
  | OpenOk => None
  end.

Definition openDB (fx : Faults) : M unit :=
  issue PrimaryOpen ;;
  guarded (openFailure fx).

Definition setClients (st : Store) : M unit :=
  t <- getTiers ;; setTiers (mkTiers st (backgrounds t) (backup t)).

Definition getAllClients (fx : Faults) : M (list ClientEntry) :=
  tryAwaitThenReturn (openDB fx)
    (fun _ =>
       issue PrimaryGetAll ;;
       guarded (getAllFault fx) ;;
       t <- getTiers ;;
       ret (arraySort newestFirst (clients t)))
    (fun e =>
       consoleLog "IndexedDB load failed, falling back to empty list:" ;;
       throw e).

Definition saveClient (fx : Faults) (client : ClientEntry) : M unit :=
  openDB fx ;;
  issue (PrimaryPut client) ;;
  committed (putFault fx client) ;;
  t <- getTiers ;;
  setClients (Idb.put client (clients t)).

Definition deleteClient (fx : Faults) (k : Z) : M unit :=
  openDB fx ;;
  issue (PrimaryDelete k) ;;
  committed (deleteFault fx k) ;;
  t <- getTiers ;;
  setClients (Idb.delete k (clients t)).

(** [Date.now() - (days * 24 * 60 * 60 * 1000)] *)
Definition cutoffOf (now days : Z) : Z := now - days * 24 * 60 * 60 * 1000.

(** The cursor of [stripOldPhotos]: [pending] are the records it has yet
    to visit, [st] the object store, [count] the counter.  The promise of
    a sweep is resolved when its cursor ends; the transaction is taken to
    commit what the walk wrote. *)
Fixpoint stripWalk (cutoff : Z) (pending : list ClientEntry) (st : Store)
  (count : Z) : Store * Z :=
  match pending with
  | [] => (st, count)
  | entry :: rest =>
      if (timestamp entry <? cutoff) && hasPhoto entry
      then stripWalk cutoff rest (Idb.put (withoutPhoto entry) st) (count + 1)
      else stripWalk cutoff rest st count
  end.

Definition stripOldPhotos (fx : Faults) (now days : Z) : M Z :=
  openDB fx ;;
  let cutoff := cutoffOf now days in
  issue PrimaryCursor ;;
  guarded (cursorFault fx) ;;
  t <- getTiers ;;
  let '(st, count) := stripWalk cutoff (clients t) (clients t) 0 in
  setClients st ;;
  ret count.

(** The cursor of [deleteOldRecords]. *)
Fixpoint deleteWalk (cutoff : Z) (pending : list ClientEntry) (st : Store)
  (count : Z) : Store * Z :=
  match pending with
  | [] => (st, count)
  | entry :: rest =>
      if timestamp entry <? cutoff
      then deleteWalk cutoff rest (Idb.delete (id entry) st) (count + 1)
      else deleteWalk cutoff rest st count
  end.

Definition deleteOldRecords (fx : Faults) (now days : Z) : M Z :=
  openDB fx ;;
  let cutoff := cutoffOf now days in
  issue PrimaryCursor ;;
  guarded (cursorFault fx) ;;
  t <- getTiers ;;
  let '(st, count) := deleteWalk cutoff (clients t) (clients t) 0 in
  setClients st ;;
  ret count.

Definition getAllBackgrounds (fx : Faults) : M (list BackgroundImage) :=
  tryAwaitThenReturn (openDB fx)
    (fun _ =>
       t <- getTiers ;;
       match backgrounds t with
       | None => ret []
       | Some l =>
           issue PrimaryBgGetAll ;;
           guarded (bgGetAllFault fx) ;;
           ret l
       end)
    (fun e => consoleLog "Failed to load backgrounds" ;; ret []).

(* ================================================================== *)
(** * The Fallback tier: [localStorage] under 'yatra_entries_backup'   *)
(* ================================================================== *)

(** [localStorage.getItem(key)], parsed; [None] when the key is absent. *)
Definition localStorageGet (fx : Faults) : M (option (list ClientEntry)) :=
  issue FallbackGet ;;
  guarded (lsGetFault fx) ;;
  t <- getTiers ;;
  ret (backup t).

(** [JSON.parse(localStorage.getItem(key) || '[]')] *)
Definition localStorageGetOrEmpty (fx : Faults) : M (list ClientEntry) :=
  item <- localStorageGet fx ;;
  ret (match item with Some l => l | None => [] end).

(** [localStorage.setItem(key, JSON.stringify(l))] *)
Definition localStorageSet (fx : Faults) (l : list ClientEntry) : M unit :=
  issue (FallbackSet l) ;;
  guarded (lsSetFault fx l) ;;
  t <- getTiers ;;
  setTiers (mkTiers (clients t) (backgrounds t) (Some l)).

(* ================================================================== *)
(** * The handlers of [App.tsx]                                        *)
(* ================================================================== *)

(** ["..." + err.message] *)
Definition messageText (e : Failure) : string :=
  match message e with Some m => m | None => "undefined" end.

Definition openRecoveryModal (entry : ClientEntry) : M bool :=
  setFailedEntry (Some entry) ;;
  setShowStorageModal true ;;
  ret false.

(** The inner [try] block of [handleSaveEntry]: the LocalStorage save. *)
Definition saveToLocalBackup (fx : Faults) (newEntry : ClientEntry) : M bool :=
  currentData <- localStorageGetOrEmpty fx ;;
  let updatedData := newEntry :: currentData in
  localStorageSet fx updatedData ;;
  setEntries (cons newEntry) ;;
  alert "⚠️ Saved to Local Backup (Database unavailable)." ;;
  ret true.

Definition handleSaveEntry (fx : Faults) (newEntry : ClientEntry) : M bool :=
  tryCatch
    (saveClient fx newEntry ;;
     setEntries (cons newEntry) ;;
     ret true)
    (fun err =>
       if isQuotaError err || messageMentionsQuota err
       then openRecoveryModal newEntry
       else
         consoleLog "IndexedDB Save Failed, attempting fallback..." ;;
         tryCatch
           (saveToLocalBackup fx newEntry)
           (fun lsErr =>
              if isQuotaError lsErr || messageMentionsQuota lsErr
              then openRecoveryModal newEntry
              else
                alert ("❌ Error saving record: " ++ messageText lsErr) ;;
                ret false)).

(** The inner [try] block of a delete: the backup without the records
    of key [k]. *)
Definition filterLocalBackup (fx : Faults) (k : Z) : M unit :=
  localData <- localStorageGetOrEmpty fx ;;
  let newLocalData := filter (fun e => negb (id e =? k)) localData in
  localStorageSet fx newLocalData.

(** ... and its empty [catch]. *)
Definition removeFromLocalBackup (fx : Faults) (k : Z) : M unit :=
  tryCatch (filterLocalBackup fx k) (fun _ => ret tt).

(** The confirmed action of [handleDeleteEntry]. *)
Definition handleDeleteEntry (fx : Faults) (k : Z) : M unit :=
  tryCatch
    (deleteClient fx k ;;
     removeFromLocalBackup fx k ;;
     setEntries (filter (fun e => negb (id e =? k))))
    (fun _ => alert "Error deleting record").

(** The effect run when [App] mounts. *)
Definition loadData (fx : Faults) : M unit :=
  tryCatch
    (data <- getAllClients fx ;;
     setEntries (fun _ => data) ;;
     bgs <- getAllBackgrounds fx ;;
     setBgImages bgs)
    (fun _ =>
       consoleLog "IndexedDB unavailable, checking LocalStorage fallback..." ;;
       tryCatch
         (localData <- localStorageGet fx ;;
          match localData with
          | Some l => setEntries (fun _ => l)
          | None => ret tt
          end)
         (fun _ => consoleLog "Critical: Storage unavailable")).

(** [onSuccess] of the storage recovery modal. *)
Definition onSuccess (entry : option ClientEntry) : M unit :=
  match entry with
  | Some e => setEntries (cons e)
  | None => ret tt
  end ;;
  setShowStorageModal false ;;
  setFailedEntry None.

(** "Save Without Photo" of the storage recovery modal. *)
Definition handleSaveTextOnly (fx : Faults) (failed : ClientEntry) : M unit :=
  tryCatch
    (let entryNoPhoto := withoutPhoto failed in
     saveClient fx entryNoPhoto ;;
     onSuccess (Some entryNoPhoto))
    (fun _ => alert "Still cannot save. Critical storage failure.").

(** The form of [AddClientView]. *)
Record FormData := mkFormData {
  formName : string;
  formPhone : string;
  formAddress : string;
  formPlan : string;
  formPayment : string
}.

(** The record [handleSubmit] builds.  [now] is [Date.now()] and
    [random1000] is [Math.floor(Math.random() * 1000)], an integer from 0
    to 999. *)
Definition newEntry (now random1000 : Z) (code : string) (formData : FormData)
  (photo : option string) (signature : string) : ClientEntry :=
  let timestamp := now in
  let uniqueId := timestamp + random1000 in
  mkClientEntry uniqueId code (formName formData) (formPhone formData)
    (formAddress formData) (formPlan formData) (formPayment formData)
    photo
    (match signature with EmptyString => None | _ => Some signature end)
    timestamp.

(** Running a handler: the settled value and the state it leaves. *)
Definition outcome {A} (m : M A) (s : Sys) : Settled A := fst (m s).
Definition after {A} (m : M A) (s : Sys) : Sys := snd (m s).

(** The operations a handler issued, given the journal before it ran. *)
Definition issuedSince (before : Sys) (now : Sys) : list TierOp :=
  skipn (List.length (journal before)) (journal now).

(** The records of a key in a sequence of records. *)
Definition withId (k : Z) (l : list ClientEntry) : list ClientEntry :=
  filter (fun x => id x =? k) l.

Definition newestFirstOrdered (l : list ClientEntry) : Prop :=
  StronglySorted (fun a b => timestamp a >= timestamp b) l.

(** The contents of the Fallback tier; an absent key is an empty
    collection. *)
Definition backupContents (t : Tiers) : list ClientEntry :=
  match backup t with Some l => l | None => [] end.

(** ** The conditions of the two maintenance sweeps *)

(** [entry.timestamp < cutoff] *)
Definition olderThan (cutoff : Z) (entry : ClientEntry) : bool :=
  timestamp entry <? cutoff.

(** [entry.timestamp < cutoff && entry.clientPhoto] *)
Definition oldWithPhoto (cutoff : Z) (entry : ClientEntry) : bool :=
  (timestamp entry <? cutoff) && hasPhoto entry.

Definition stripIfOld (cutoff : Z) (entry : ClientEntry) : ClientEntry :=
  if oldWithPhoto cutoff entry then withoutPhoto entry else entry.

(** ** Concrete environments and records for the examples *)

Definition noFaults : Faults :=
  mkFaults OpenOk (fun _ => None) None (fun _ => None) None None None
    (fun _ => None).

(** No IndexedDB in this browser; LocalStorage works. *)
Definition primaryUnavailable : Faults :=
  mkFaults OpenUnsupported (fun _ => None) None (fun _ => None) None None None
    (fun _ => None).

(** Neither tier can be used. *)
Definition bothUnavailable (e : Failure) : Faults :=
  mkFaults OpenUnsupported (fun _ => None) None (fun _ => None) None None
    (Some e) (fun _ => Some e).

Definition quotaExceeded : Failure :=
  mkFailure true (Some 22) (Some "QuotaExceededError"%string)
    (Some "The quota has been exceeded."%string).

Definition securityError : Failure :=
  mkFailure true (Some 18) (Some "SecurityError"%string)
    (Some "The operation is insecure."%string).

Definition unknownError : Failure :=
  mkFailure true (Some 0) (Some "UnknownError"%string)
    (Some "Internal error opening backing store."%string).

(** IndexedDB works; LocalStorage can be read and not written. *)
Definition fallbackReadOnly : Faults :=
  mkFaults OpenOk (fun _ => None) None (fun _ => None) None None None
    (fun _ => Some securityError).

(** The database opens and the read of the backgrounds errs. *)
Definition backgroundsReadFails : Faults :=
  mkFaults OpenOk (fun _ => None) None (fun _ => None) None
    (Some unknownError) None (fun _ => None).

(** The Primary tier is full for records that carry a photo. *)
Definition primaryFullForPhotos : Faults :=
  mkFaults OpenOk
    (fun c => if hasPhoto c then Some (Reported quotaExceeded) else None)
    None (fun _ => None) None None None (fun _ => None).

(** The same, found out at commit only: the transaction of a record that
    carries a photo aborts, and no error event is fired. *)
Definition primaryFullAtCommit : Faults :=
  mkFaults OpenOk (fun c => if hasPhoto c then Some Aborted else None)
    None (fun _ => None) None None None (fun _ => None).

(** The transaction of a delete aborts, and no error event is fired. *)
Definition deleteAbortsAtCommit : Faults :=
  mkFaults OpenOk (fun _ => None) None (fun _ => Some Aborted) None None None
    (fun _ => None).

(** No IndexedDB in this browser, and LocalStorage has no room for a
    collection that holds a photo. *)
Definition fallbackFullForPhotos : Faults :=
  mkFaults OpenUnsupported (fun _ => None) None (fun _ => None) None None None
    (fun l => if existsb hasPhoto l then Some quotaExceeded else None).

Definition sampleEntry (k ts : Z) (photo : option string) : ClientEntry :=
  mkClientEntry k "YATRA-07KX2A" "Asha Devi" "9000000000" "Mathura"
    "Yamuna Pujan" "Paid in full" photo None ts.

(** A record created [days] days before [now]. *)
Definition agedEntry (now days k : Z) : ClientEntry :=
  sampleEntry k (now - days * 86400000) (Some "data:image/jpeg;base64,/9j/4AAQ"%string).

Definition freshSys (t : Tiers) : Sys := mkSys t initialUi [].

Definition emptyTiers : Tiers := mkTiers [] (Some []) None.

(* ================================================================== *)
(** * Background images ([services/db.ts], [App.tsx])                  *)
(* ================================================================== *)

(** The object store [backgrounds]: records in ascending order of their
    string key. *)
Module BgStore.

(** [store.put(bg)] *)
Fixpoint put (b : BackgroundImage) (s : list BackgroundImage)
  : list BackgroundImage :=
  match s with
  | [] => [b]
  | x :: s' =>
      if String.ltb (bgId b) (bgId x) then b :: s
      else if String.eqb (bgId b) (bgId x) then b :: s'
      else x :: put b s'
  end.

Fixpoint ascending (s : list BackgroundImage) : bool :=
  match s with
  | [] => true
  | x :: s' =>
      match s' with
      | [] => true
      | y :: _ => String.ltb (bgId x) (bgId y) && ascending s'
      end
  end.

Definition withKey (k : string) (s : list BackgroundImage)
  : list BackgroundImage :=
  filter (fun x => String.eqb (bgId x) k) s.

End BgStore.

(** The environment's decisions for the writes of background images, and
    the text of the [NotFoundError] that [db.transaction] throws when the
    object store does not exist.  Neither write listens to its request:
    of a request that fails, the promise gets [transaction.error] as
    [transaction.onerror] reads it, and that is the [e] of [Reported e]
    here (where it reads [null], an [e] that is no [DOMException]). *)
Record BgFaults := mkBgFaults {
  bgPutFault : BackgroundImage -> option WriteFailure;
  bgClearFault : option WriteFailure;
  notFoundMessage : option string
}.

Definition storeNotFound (bx : BgFaults) : Failure :=
  mkFailure true (Some 8) (Some "NotFoundError"%string) (notFoundMessage bx).

Definition setBackgrounds (l : list BackgroundImage) : M unit :=
  t <- getTiers ;; setTiers (mkTiers (clients t) (Some l) (backup t)).

Definition saveBackground (fx : Faults) (bx : BgFaults) (bg : BackgroundImage)
  : M unit :=
  openDB fx ;;
  t <- getTiers ;;
  match backgrounds t with
  | None => throw (storeNotFound bx)
  | Some l =>
      committed (bgPutFault bx bg) ;;
      setBackgrounds (BgStore.put bg l)
  end.

Definition clearBackgrounds (fx : Faults) (bx : BgFaults) : M unit :=
  openDB fx ;;
  t <- getTiers ;;
  match backgrounds t with
  | None => throw (storeNotFound bx)
  | Some _ =>
      committed (bgClearFault bx) ;;
      setBackgrounds []
  end.

(** One turn of the loop of [handleImageUpload]: the [try] block and its
    [catch] for one file, already read into an image.  [newImages] are
    the images saved so far. *)
Definition uploadOne (fx : Faults) (bx : BgFaults) (img : BackgroundImage)
  (newImages : list BackgroundImage) : M (list BackgroundImage) :=
  tryCatch
    (saveBackground fx bx img ;;
     ret (newImages ++ [img]))
    (fun err =>
       consoleLog "Error saving background" ;;
       (if isQuotaError err
        then alert "Storage full! Cannot add more background images."
        else ret tt) ;;
       ret newImages).

Fixpoint uploadEach (fx : Faults) (bx : BgFaults)
  (files : list BackgroundImage) (newImages : list BackgroundImage)
  : M (list BackgroundImage) :=
  match files with
  | [] => ret newImages
  | img :: rest =>
      pushed <- uploadOne fx bx img newImages ;;
      uploadEach fx bx rest pushed
  end.

Definition handleImageUpload (fx : Faults) (bx : BgFaults)
  (files : list BackgroundImage) : M unit :=
  match files with
  | [] => ret tt
  | _ :: _ =>
      newImages <- uploadEach fx bx files [] ;;
      modifyUi (fun u => mkUi (entries u) (bgImages u ++ newImages)
                              (failedEntry u) (showStorageModal u)
                              (alerts u) (console u))
  end.

(** The confirmed action of [handleClearBackgrounds]; the index of the
    slide show, which it sets back to 0, is no part of [Ui]. *)
Definition handleClearBackgrounds (fx : Faults) (bx : BgFaults) : M unit :=
  tryCatch
    (clearBackgrounds fx bx ;;
     setBgImages [])
    (fun _ => alert "Error clearing backgrounds").

(** How the save of [img] fails, if it fails. *)
Definition uploadFailure (fx : Faults) (bx : BgFaults) (t : Tiers)
  (img : BackgroundImage) : option WriteFailure :=
  match openFailure fx with
  | Some e => Some (Reported e)
  | None =>
      match backgrounds t with
      | None => Some (Reported (storeNotFound bx))
      | Some _ => bgPutFault bx img
      end
  end.

Definition uploadSucceeds (fx : Faults) (bx : BgFaults) (t : Tiers)
  (img : BackgroundImage) : bool :=
  match uploadFailure fx bx t img with Some _ => false | None => true end.

(** The save of [img] is rejected with a value that [isQuotaError]
    takes. *)
Definition uploadHitsQuota (fx : Faults) (bx : BgFaults) (t : Tiers)
  (img : BackgroundImage) : bool :=
  match uploadFailure fx bx t img with
  | Some (Reported e) => isQuotaError e
  | _ => false
  end.

(** The save of [img] is never settled. *)
Definition uploadHangs (fx : Faults) (bx : BgFaults) (t : Tiers)
  (img : BackgroundImage) : bool :=
  match uploadFailure fx bx t img with
  | Some Aborted => true
  | _ => false
  end.

(** The files an upload gets through: those before the first whose save
    is never settled. *)
Fixpoint beforeHang (fx : Faults) (bx : BgFaults) (t : Tiers)
  (files : list BackgroundImage) : list BackgroundImage :=
  match files with
  | [] => []
  | img :: rest =>
      if uploadHangs fx bx t img then []
      else img :: beforeHang fx bx t rest
  end.

(* ================================================================== *)
(** * The actions of the storage recovery modal ([App.tsx])            *)
(* ================================================================== *)

Definition refreshData (fx : Faults) : M unit :=
  data <- getAllClients fx ;;
  setEntries (fun _ => data).

(** [onClose] of the storage recovery modal. *)
Definition onClose : M unit := setShowStorageModal false.

(** [`${count}`] for an integer. *)
Definition numberText (n : Z) : string := NilZero.string_of_int (Z.to_int n).

Definition handleOptimizeImages (fx : Faults) (now : Z) : M unit :=
  tryCatch
    (count <- stripOldPhotos fx now 30 ;;
     refreshData fx ;;
     alert ("Optimization complete! Removed photos from "
            ++ numberText count ++ " old records.") ;;
     onClose)
    (fun _ => alert "Optimization failed.").

(** [confirmed] is the answer to [window.confirm]. *)
Definition handleDeleteOld (fx : Faults) (now : Z) (confirmed : bool)
  : M unit :=
  if confirmed then
    tryCatch
      (count <- deleteOldRecords fx now 365 ;;
       refreshData fx ;;
       alert ("Cleanup complete! Deleted "
              ++ numberText count ++ " records older than 1 year.") ;;
       onClose)
      (fun _ => alert "Cleanup failed.")
  else ret tt.

(* ================================================================== *)
(** * The ledger view: search and date range ([App.tsx])               *)
(* ================================================================== *)

Section LedgerView.

(** [d.setHours(0,0,0,0)] on the date of a timestamp: the start of its
    day in local time, in milliseconds.  It belongs to the platform. *)
Variable startOfDay : Z -> Z.

Definition isEmptyString (s : string) : bool :=
  match s with EmptyString => true | _ => false end.

Definition matchesSearch (searchTerm : string) (entry : ClientEntry) : bool :=
  let searchLower := JsString.toLowerCase searchTerm in
  isEmptyString searchTerm ||
  JsString.includes (JsString.toLowerCase (clientName entry)) searchLower ||
  JsString.includes (phone entry) searchLower ||
  JsString.includes (JsString.toLowerCase (uniqueCode entry)) searchLower ||
  JsString.includes (JsString.toLowerCase (servicePlan entry)) searchLower.

(** [dateFrom] and [dateTo] are the values of the two date inputs:
    [None] for the empty string, [Some ms] for a date, as
    [new Date(value)] reads it. *)
Definition matchesDate (dateFrom dateTo : option Z) (entry : ClientEntry)
  : bool :=
  let matches := true in
  match dateFrom, dateTo with
  | None, None => matches
  | _, _ =>
      let entryDate := startOfDay (timestamp entry) in
      let matches :=
        match dateFrom with
        | Some from => if entryDate <? from then false else matches
        | None => matches
        end in
      match dateTo with
      | Some to => if to <? entryDate then false else matches
      | None => matches
      end
  end.

Definition filteredEntries (searchTerm : string) (dateFrom dateTo : option Z)
  (entries : list ClientEntry) : list ClientEntry :=
  filter (fun entry => matchesSearch searchTerm entry
                       && matchesDate dateFrom dateTo entry) entries.

End LedgerView.

(** [text] contains [word], whatever the case of the letters of either. *)
Definition containsUpToCase (text word : string) : Prop :=
  exists before w after,
    text = (before ++ w ++ after)%string /\
    JsString.toLowerCase w = JsString.toLowerCase word.

(** The strings on which [JsString.toLowerCase] is [toLowerCase]: no
    code unit above 127. *)
Fixpoint asciiOnly (s : string) : bool :=
  match s with
  | EmptyString => true
  | String c s' => (N_of_ascii c <? 128)%N && asciiOnly s'
  end.

(* ================================================================== *)
(** * Face search ([services/geminiService.ts], [App.tsx])             *)
(* ================================================================== *)














(* ================================================================== *)
(** * The generated plan ([services/geminiService.ts], [App.tsx])      *)
(* ================================================================== *)

Inductive PlanReply :=
| PlanFails
| PlanText (text : option string).

(** [ai] stands for the call of the model on the prompt built from
    [ritualName]. *)
Definition generateRitualPlan (ai : string -> PlanReply) (ritualName : string)
  : string :=
  match ai ritualName with
  | PlanFails => "Error connecting to AI service. Please type details manually."
  | PlanText (Some (String c t)) => String c t
  | PlanText _ => "Could not generate details. Please type manually."
  end.

Definition newline : string := String (ascii_of_nat 10) EmptyString.

(** The new form and the alert, if any. *)
Definition handleAiGenerate (ai : string -> PlanReply) (formData : FormData)
  : FormData * option string :=
  match formPlan formData with
  | EmptyString =>
      (formData,
       Some "Please enter a ritual name first (e.g. Rudrabhishek)"%string)
  | _ =>
      let result := generateRitualPlan ai (formPlan formData) in
      (mkFormData (formName formData) (formPhone formData)
         (formAddress formData)
         (formPlan formData ++ newline ++ newline ++ result)
         (formPayment formData),
       None)
  end.

(* ================================================================== *)
(** * The signature pad ([components/SignaturePad.tsx])                *)
(* ================================================================== *)

(** The two state cells of the pad and [signature], the cell of the form
    that [onSave] writes. *)
Record Pad := mkPad {
  isDrawing : bool;
  hasDrawn : bool;
  signature : string
}.

(** The form starts with [signature = ''], the pad with both flags off. *)
Definition initialPad : Pad := mkPad false false "".

(** The pointer goes down, moves, goes up or leaves ([canvasUrl] is what
    [canvas.toDataURL()] gives at that time), and the button Clear. *)
Inductive PadEvent :=
| StartDrawing
| Draw
| StopDrawing (canvasUrl : string)
| ClearCanvas.

Definition padStep (p : Pad) (ev : PadEvent) : Pad :=
  match ev with
  | StartDrawing => mkPad true (hasDrawn p) (signature p)
  | Draw =>
      if isDrawing p then mkPad (isDrawing p) true (signature p) else p
  | StopDrawing canvasUrl =>
      if hasDrawn p then mkPad false (hasDrawn p) canvasUrl
      else mkPad false (hasDrawn p) (signature p)
  | ClearCanvas => mkPad (isDrawing p) false ""
  end.

Definition padRun (events : list PadEvent) : Pad :=
  fold_left padStep events initialPad.

(* ================================================================== *)
(** * Facts about strings                                              *)
(* ================================================================== *)

Module JsStringFacts.
Import JsString.

Lemma startsWith_spec (p s : string) :
  startsWith s p = true <-> exists rest, s = (p ++ rest)%string.
Proof.
  revert s; induction p as [|a p IH]; intros s; simpl.
  - split; [intros _; now exists s | intros _; now destruct s].
  - destruct s as [|b s]; simpl.
    + split; [discriminate | intros [rest H]; discriminate].
    + rewrite andb_true_iff, Ascii.eqb_eq, IH. split.
      * intros [-> [rest ->]]. now exists rest.
      * intros [rest H]. injection H as -> ->. split; [reflexivity | now exists rest].
Qed.

Lemma includes_spec (s p : string) :
  includes s p = true <->
  exists before after, s = (before ++ p ++ after)%string.
Proof.
  induction s as [|c s IH].
  - change (includes EmptyString p) with (startsWith EmptyString p || false).
    rewrite orb_false_r, startsWith_spec. split.
    + intros [rest H]. now exists EmptyString, rest.
    + intros [before [after H]].
      destruct before; [now exists after | discriminate].
  - change (includes (String c s) p)
      with (startsWith (String c s) p || includes s p).
    rewrite orb_true_iff, startsWith_spec, IH. split.
    + intros [[rest H] | [before [after H]]].
      * now exists EmptyString, rest.
      * exists (String c before), after. simpl. now rewrite H.
    + intros [before [after H]]. destruct before as [|b before].
      * left. now exists after.
      * right. simpl in H. injection H as _ H. now exists before, after.
Qed.

Lemma toLowerCase_app (a b : string) :
  toLowerCase (a ++ b) = (toLowerCase a ++ toLowerCase b)%string.
Proof. induction a as [|c a IH]; simpl; [reflexivity | now rewrite IH]. Qed.

(** A split of the lower-cased text comes from a split of the text. *)
Lemma toLowerCase_split (m x y : string) :
  toLowerCase m = (x ++ y)%string ->
  exists a b, m = (a ++ b)%string /\ toLowerCase a = x /\ toLowerCase b = y.
Proof.
  revert m; induction x as [|c x IH]; intros m H.
  - exists EmptyString, m. auto.
  - destruct m as [|d m]; [discriminate |].
    simpl in H. injection H as Hc H.
    destruct (IH m H) as [a [b [-> [Ha Hb]]]].
    exists (String d a), b. simpl. now rewrite Hc, Ha, Hb.
Qed.

Lemma sameWord_of_lower (w p : string) : toLowerCase w = p -> sameWord w p.
Proof.
  revert p; induction w as [|a w IH]; intros p H; simpl in H; subst p.
  - constructor.
  - constructor; [right; left; reflexivity | now apply IH].
Qed.

(** For a word already in lower case, being the same word up to case is
    lower-casing to it. *)
Lemma lower_of_sameWord (w p : string) :
  toLowerCase p = p -> sameWord w p -> toLowerCase w = p.
Proof.
  intros Hp H; induction H as [|a b s t Hab Hst IH]; [reflexivity |].
  simpl in Hp. injection Hp as Hb Ht. simpl.
  rewrite (IH Ht). f_equal.
  destruct Hab as [-> | [<- | ->]]; try assumption; try reflexivity.
  now rewrite Hb.
Qed.

Lemma includes_lower_iff (m p : string) :
  toLowerCase p = p ->
  includes (toLowerCase m) p = true <-> containsIgnoringCase m p.
Proof.
  intros Hp. rewrite includes_spec. split.
  - intros [x [y H]].
    destruct (toLowerCase_split _ _ _ H) as [before [rest [-> [_ Hrest]]]].
    destruct (toLowerCase_split _ _ _ Hrest) as [w [after [-> [Hw _]]]].
    exists before, w, after. split; [reflexivity | now apply sameWord_of_lower].
  - intros [before [w [after [-> Hw]]]].
    exists (toLowerCase before), (toLowerCase after).
    now rewrite !toLowerCase_app, (lower_of_sameWord _ _ Hp Hw).
Qed.

End JsStringFacts.

Lemma optZ_is_true (o : option Z) (n : Z) : optZ_is o n = true <-> o = Some n.
Proof.
  destruct o as [k|]; simpl; [rewrite Z.eqb_eq | ]; split; intros H;
    try congruence; try discriminate.
Qed.

Lemma optString_is_true (o : option string) (s : string) :
  optString_is o s = true <-> o = Some s.
Proof.
  destruct o as [t|]; simpl; [rewrite String.eqb_eq | ]; split; intros H;
    try congruence; try discriminate.
Qed.

Lemma isQuotaError_iff (e : Failure) :
  isQuotaError e = true <-> isDOMException e = true /\ carriesQuotaCodeOrName e.
Proof.
  unfold isQuotaError, carriesQuotaCodeOrName.
  rewrite andb_true_iff, !orb_true_iff, !optZ_is_true, !optString_is_true.
  tauto.
Qed.

Lemma messageMentionsQuota_iff (e : Failure) :
  messageMentionsQuota e = true <-> messageContainsQuota e.
Proof.
  unfold messageMentionsQuota, messageContainsQuota.
  destruct (message e) as [m|].
  - rewrite JsStringFacts.includes_lower_iff by reflexivity. split.
    + intros H. now exists m.
    + intros [m' [Hm H]]. now injection Hm as ->.
  - split; [discriminate | intros [m [H _]]; discriminate].
Qed.

(* ================================================================== *)
(** * Running handlers                                                 *)
(* ================================================================== *)

Lemma skipn_journal {A} (l x : list A) : skipn (List.length l) (l ++ x) = x.
Proof. induction l as [|a l IH]; simpl; auto. Qed.

(** Unfold the monad and the handlers down to tuples of states. *)
Ltac red_m :=
  cbv beta iota zeta delta
    [outcome after handleSaveEntry saveToLocalBackup openRecoveryModal
     handleDeleteEntry removeFromLocalBackup filterLocalBackup loadData
     onSuccess
     handleSaveTextOnly saveClient deleteClient getAllClients
     getAllBackgrounds openDB stripOldPhotos deleteOldRecords
     localStorageGet localStorageGetOrEmpty localStorageSet issuedSince
     reload initialUi freshSys backupContents
     bind tryCatch tryAwaitThenReturn ret throw never issue guarded committed
     getTiers setTiers setClients modifyUi setEntries setBgImages
     setFailedEntry setShowStorageModal alert consoleLog
     fst snd tiers ui journal entries bgImages failedEntry showStorageModal
     alerts console clients backgrounds backup].

(** Case analysis on every decision of the environment met on the way. *)
Ltac crack :=
  repeat (red_m;
    match goal with
    | |- context [match ?w with Reported _ => _ | Aborted => _ end] =>
        is_var w; destruct w
    | |- context [match openFailure ?fx with _ => _ end] =>
        destruct (openFailure fx) eqn:?
    | |- context [match putFault ?fx ?c with _ => _ end] =>
        destruct (putFault fx c) eqn:?
    | |- context [match getAllFault ?fx with _ => _ end] =>
        destruct (getAllFault fx) eqn:?
    | |- context [match deleteFault ?fx ?k with _ => _ end] =>
        destruct (deleteFault fx k) eqn:?
    | |- context [match cursorFault ?fx with _ => _ end] =>
        destruct (cursorFault fx) eqn:?
    | |- context [match bgGetAllFault ?fx with _ => _ end] =>
        destruct (bgGetAllFault fx) eqn:?
    | |- context [match lsGetFault ?fx with _ => _ end] =>
        destruct (lsGetFault fx) eqn:?
    | |- context [match lsSetFault ?fx ?l with _ => _ end] =>
        destruct (lsSetFault fx l) eqn:?
    | |- context [if isQuotaError ?e || messageMentionsQuota ?e then _ else _] =>
        change (isQuotaError e || messageMentionsQuota e)
          with (isQuotaFailure e);
        destruct (isQuotaFailure e) eqn:?
    | |- context [if isQuotaFailure ?e then _ else _] =>
        destruct (isQuotaFailure e) eqn:?
    end);
  red_m.

Ltac ops := rewrite <- ?app_assoc, ?skipn_journal; cbn [app].

Ltac destruct_sys s :=
  let c := fresh "store" in
  let bgs := fresh "bgs" in
  let bk := fresh "bk" in
  destruct s as [[c bgs bk] [? ? ? ? ? ?] ?].

(* ================================================================== *)
(** * The quota classifier                                             *)
(* ================================================================== *)

(** C2, as the classifier is written: a failure is a quota failure exactly
    when it is a [DOMException] that carries a recognized quota code (22 or
    1014) or name, or when its message contains "quota" in any letter case.
    [handleSaveEntry] applies this one test to the failure of the Primary
    tier and to the failure of the Fallback tier: starting with the
    recovery modal closed, the modal is open afterwards exactly when the
    failure that ended the save is a quota failure.  (A Primary save that
    is never settled hands the classifier nothing, and the modal stays
    closed.) *)
Theorem quota_classifier_characterised
  (e : Failure) (fx : Faults) (newEntry : ClientEntry) (s : Sys) :
  showStorageModal (ui s) = false ->
  (isQuotaFailure e = true <->
     (isDOMException e = true /\ carriesQuotaCodeOrName e) \/
     messageContainsQuota e) /\
  let s' := after (handleSaveEntry fx newEntry) s in
  match outcome (saveClient fx newEntry) s with
  | Resolved _ => showStorageModal (ui s') = false
  | Rejected err =>
      if isQuotaFailure err then showStorageModal (ui s') = true
      else
        match outcome (saveToLocalBackup fx newEntry) s with
        | Resolved _ => showStorageModal (ui s') = false
        | Rejected lsErr => showStorageModal (ui s') = isQuotaFailure lsErr
        | Pending => False
        end
  | Pending => showStorageModal (ui s') = false
  end.
Proof.
  intros Hclosed. split.
  - unfold isQuotaFailure.
    rewrite orb_true_iff, isQuotaError_iff, messageMentionsQuota_iff.
    reflexivity.
  - destruct_sys s. cbn in Hclosed. subst. crack; congruence.
Qed.

Lemma quota_classifier_characterised_witness :
  showStorageModal (ui (freshSys emptyTiers)) = false /\
  (isQuotaFailure quotaExceeded = true <->
     (isDOMException quotaExceeded = true /\
      carriesQuotaCodeOrName quotaExceeded) \/
     messageContainsQuota quotaExceeded) /\
  showStorageModal
    (ui (after (handleSaveEntry (bothUnavailable quotaExceeded)
                  (sampleEntry 1 10 None)) (freshSys emptyTiers))) = true.
Proof.
  split; [reflexivity |].
  exact (quota_classifier_characterised quotaExceeded
           (bothUnavailable quotaExceeded) (sampleEntry 1 10 None)
           (freshSys emptyTiers) eq_refl).
Defined.

(** C2, as it is stated, fails: an error object that is not a
    [DOMException] carries the code 22 and the name [QuotaExceededError]
    and is not classified as a quota failure. *)
Lemma quota_code_without_DOMException :
  let e := mkFailure false (Some 22) (Some "QuotaExceededError"%string)
             (Some "disk is full"%string) in
  carriesQuotaCodeOrName e /\ isQuotaFailure e = false.
Proof. split; [left; reflexivity | reflexivity]. Qed.

(* ================================================================== *)
(** * The save cascade                                                 *)
(* ================================================================== *)

(** C1, on the code.  [handleSaveEntry] goes to the Primary tier first.
    A Primary save that is rejected is classified: a quota failure gives
    the recovery decision point (the entry is kept as [failedEntry], the
    modal opens, [false] is returned), nothing is issued to the Fallback
    tier and the Primary save is not issued again; any other failure has
    the same record written to the Fallback tier in front of what is
    there, where a quota failure gives the decision point again and any
    other failure is reported as an error.  A Primary save whose
    transaction aborts with no error event is not classified at all:
    [saveClient] does not listen to [onabort], the save never returns,
    and there is neither a decision point nor a Fallback attempt -- as for
    a record with a photo on a Primary tier that is found full at
    commit. *)
Theorem save_cascade (fx : Faults) (newEntry : ClientEntry) (s : Sys) :
  let s' := after (handleSaveEntry fx newEntry) s in
  let result := outcome (handleSaveEntry fx newEntry) s in
  let ops := issuedSince s s' in
  let primaryOps := issuedSince s (after (saveClient fx newEntry) s) in
  let current := backupContents (tiers s) in
  ((exists rest, ops = PrimaryOpen :: rest) /\
   (List.length (filter isPrimaryPut ops) <= 1)%nat /\
   match outcome (saveClient fx newEntry) s with
   | Resolved _ =>
       result = Resolved true /\
       ops = [PrimaryOpen; PrimaryPut newEntry] /\
       clients (tiers s') = Idb.put newEntry (clients (tiers s)) /\
       backup (tiers s') = backup (tiers s) /\
       entries (ui s') = newEntry :: entries (ui s)
   | Rejected err =>
       (primaryOps = [PrimaryOpen] \/
        primaryOps = [PrimaryOpen; PrimaryPut newEntry]) /\
       if isQuotaFailure err then
         result = Resolved false /\
         failedEntry (ui s') = Some newEntry /\
         showStorageModal (ui s') = true /\
         ops = primaryOps /\
         existsb isFallbackOp ops = false /\
         tiers s' = tiers s /\
         entries (ui s') = entries (ui s)
       else
         match outcome (saveToLocalBackup fx newEntry) s with
         | Resolved _ =>
             result = Resolved true /\
             ops = primaryOps ++
                   [FallbackGet; FallbackSet (newEntry :: current)] /\
             backup (tiers s') = Some (newEntry :: current) /\
             clients (tiers s') = clients (tiers s) /\
             entries (ui s') = newEntry :: entries (ui s) /\
             alerts (ui s') =
               alerts (ui s) ++
               ["⚠️ Saved to Local Backup (Database unavailable)."%string]
         | Rejected lsErr =>
             result = Resolved false /\
             tiers s' = tiers s /\
             entries (ui s') = entries (ui s) /\
             (ops = primaryOps ++ [FallbackGet] \/
              ops = primaryOps ++
                    [FallbackGet; FallbackSet (newEntry :: current)]) /\
             if isQuotaFailure lsErr then
               failedEntry (ui s') = Some newEntry /\
               showStorageModal (ui s') = true
             else
               failedEntry (ui s') = failedEntry (ui s) /\
               showStorageModal (ui s') = showStorageModal (ui s) /\
               alerts (ui s') =
                 alerts (ui s) ++
                 [("❌ Error saving record: " ++ messageText lsErr)%string]
         | Pending => False
         end
   | Pending =>
       result = Pending /\
       ops = [PrimaryOpen; PrimaryPut newEntry] /\
       tiers s' = tiers s /\
       ui s' = ui s
   end) /\
  let r := sampleEntry 7 100 (Some "data:image/jpeg;base64,/9j/4AAQ"%string) in
  let s0 := freshSys emptyTiers in
  let s1 := after (handleSaveEntry primaryFullAtCommit r) s0 in
  outcome (handleSaveEntry primaryFullAtCommit r) s0 = Pending /\
  failedEntry (ui s1) = None /\
  showStorageModal (ui s1) = false /\
  alerts (ui s1) = [] /\
  existsb isFallbackOp (issuedSince s0 s1) = false /\
  tiers s1 = tiers s0.
Proof.
  split.
  - destruct_sys s. crack; ops.
    all: try congruence.
    all: repeat split; eauto using Nat.le_0_l.
    all: try congruence.
    all: first [left; reflexivity | right; reflexivity].
  - vm_compute. repeat split.
Qed.

(** A database that cannot be opened is no quota failure: the cascade
    goes on to the Fallback tier. *)
Lemma environment_unavailable_is_other (fx : Faults) (e : Failure) :
  openFailure fx = Some e ->
  dbOpen fx = OpenUnsupported \/ dbOpen fx = OpenRequestError ->
  isQuotaFailure e = false.
Proof.
  unfold openFailure. intros He [H | H]; rewrite H in He;
    injection He as <-; reflexivity.
Qed.

(** In a browser without IndexedDB the save goes on to the Fallback
    tier, and writes the record there. *)
Lemma save_cascade_witness :
  let r := sampleEntry 7 100 None in
  let s := freshSys emptyTiers in
  let s' := after (handleSaveEntry primaryUnavailable r) s in
  outcome (handleSaveEntry primaryUnavailable r) s = Resolved true /\
  issuedSince s s' = [PrimaryOpen; FallbackGet; FallbackSet [r]] /\
  backup (tiers s') = Some [r].
Proof.
  pose proof (save_cascade primaryUnavailable (sampleEntry 7 100 None)
                (freshSys emptyTiers)) as H.
  cbv zeta in H. destruct H as [[_ [_ H]] _].
  destruct H as [_ [H1 [H2 [H3 _]]]].
  exact (conj H1 (conj H2 H3)).
Defined.

(* ================================================================== *)
(** * The object store: keys stay ascending, a key occurs once         *)
(* ================================================================== *)

Module IdbFacts.
Import Idb.

Lemma ascending_cons (x : ClientEntry) (s : Store) :
  ascending (x :: s) = true <->
  Forall (fun y => id x < id y) s /\ ascending s = true.
Proof.
  revert x; induction s as [|y s IH]; intros x.
  - simpl. split; [intros _; split; [constructor | reflexivity] | reflexivity].
  - change (ascending (x :: y :: s))
      with ((id x <? id y) && ascending (y :: s)).
    rewrite andb_true_iff, Z.ltb_lt. split.
    + intros [Hxy Hs]. split; [| exact Hs].
      constructor; [exact Hxy |].
      apply IH in Hs. destruct Hs as [Hy _].
      eapply Forall_impl; [| exact Hy]. simpl. intros z Hz. lia.
    + intros [Hall Hs]. split; [now inversion Hall | exact Hs].
Qed.

Lemma ascending_app (a b : Store) :
  ascending (a ++ b) = true <->
  ascending a = true /\ ascending b = true /\
  Forall (fun x => Forall (fun y => id x < id y) b) a.
Proof.
  induction a as [|x a IH].
  - simpl. split; [intros H; repeat split; [exact H | constructor] | tauto].
  - change ((x :: a) ++ b) with (x :: (a ++ b)).
    rewrite !ascending_cons, IH, Forall_app. split.
    + intros [[Ha Hb] [Hasc [Hbsc Hab]]]. repeat split; auto.
    + intros [[Ha Hasc] [Hbsc Hab]]. inversion Hab; subst.
      repeat split; auto.
Qed.

(** The record of a key that the store holds is replaced where it is. *)
Lemma put_replace (c x : ClientEntry) (a b : Store) :
  ascending (a ++ x :: b) = true -> id c = id x ->
  put c (a ++ x :: b) = a ++ c :: b.
Proof.
  intros Hasc Hid. induction a as [|y a IH].
  - simpl. rewrite Hid, Z.ltb_irrefl, Z.eqb_refl. reflexivity.
  - change ((y :: a) ++ x :: b) with (y :: (a ++ x :: b)) in *.
    apply ascending_cons in Hasc. destruct Hasc as [Hy Hasc].
    apply Forall_app in Hy. destruct Hy as [_ Hy]. inversion Hy; subst.
    simpl.
    destruct (Z.ltb_spec (id c) (id y)); [lia |].
    destruct (Z.eqb_spec (id c) (id y)); [lia |].
    now rewrite (IH Hasc).
Qed.

Lemma filter_all {A} (f : A -> bool) (l : list A) :
  Forall (fun x => f x = true) l -> filter f l = l.
Proof.
  induction 1 as [|x l Hx _ IH]; simpl; [reflexivity |].
  now rewrite Hx, IH.
Qed.

Lemma filter_none {A} (f : A -> bool) (l : list A) :
  Forall (fun x => f x = false) l -> filter f l = [].
Proof.
  induction 1 as [|x l Hx _ IH]; simpl; [reflexivity |].
  now rewrite Hx, IH.
Qed.

(** Around a record, every other key differs from its key. *)
Lemma ascending_around (x : ClientEntry) (a b : Store) :
  ascending (a ++ x :: b) = true ->
  Forall (fun y => id y < id x) a /\ Forall (fun y => id x < id y) b.
Proof.
  intros H. apply ascending_app in H. destruct H as [_ [Hxb Hab]].
  apply ascending_cons in Hxb. destruct Hxb as [Hb _]. split; [| exact Hb].
  eapply Forall_impl; [| exact Hab]. simpl. intros y Hy. now inversion Hy.
Qed.

(** Deleting the key of a record removes that record only. *)
Lemma delete_at (x : ClientEntry) (a b : Store) :
  ascending (a ++ x :: b) = true ->
  delete (id x) (a ++ x :: b) = a ++ b.
Proof.
  intros H. destruct (ascending_around _ _ _ H) as [Ha Hb].
  unfold delete. rewrite filter_app. simpl. rewrite Z.eqb_refl. simpl.
  rewrite !filter_all; [reflexivity | |].
  - eapply Forall_impl; [| exact Hb]. simpl. intros y Hy.
    destruct (Z.eqb_spec (id y) (id x)); [lia | reflexivity].
  - eapply Forall_impl; [| exact Ha]. simpl. intros y Hy.
    destruct (Z.eqb_spec (id y) (id x)); [lia | reflexivity].
Qed.

Lemma ascending_drop (x : ClientEntry) (a b : Store) :
  ascending (a ++ x :: b) = true -> ascending (a ++ b) = true.
Proof.
  rewrite !ascending_app, ascending_cons.
  intros [Ha [[_ Hb] Hab]]. repeat split; auto.
  eapply Forall_impl; [| exact Hab]. simpl. intros y Hy. now inversion Hy.
Qed.

(** Only the keys matter. *)
Lemma ascending_keys (s s' : Store) :
  map id s = map id s' -> ascending s = ascending s'.
Proof.
  revert s'; induction s as [|x s IH]; intros [|x' s'] H; try discriminate.
  - reflexivity.
  - simpl in H. injection H as Hx Hs. specialize (IH _ Hs).
    destruct s as [|y s]; destruct s' as [|y' s']; try discriminate.
    + reflexivity.
    + change (ascending (x :: y :: s))
        with ((id x <? id y) && ascending (y :: s)).
      change (ascending (x' :: y' :: s'))
        with ((id x' <? id y') && ascending (y' :: s')).
      simpl in Hs. injection Hs as Hy _. now rewrite Hx, Hy, IH.
Qed.

Lemma In_put (c y : ClientEntry) (s : Store) :
  In y (put c s) -> y = c \/ In y s.
Proof.
  induction s as [|x s IH]; simpl.
  - intros [<- | []]. now left.
  - destruct (id c <? id x); [simpl; intuition congruence |].
    destruct (id c =? id x); simpl; intuition congruence.
Qed.

Lemma put_ascending (c : ClientEntry) (s : Store) :
  ascending s = true -> ascending (put c s) = true.
Proof.
  induction s as [|x s IH]; intros H; [reflexivity |].
  simpl.
  destruct (Z.ltb_spec (id c) (id x)) as [Hlt | Hge].
  - change (ascending (c :: x :: s)) with ((id c <? id x) && ascending (x :: s)).
    rewrite H. apply andb_true_iff. split; [now apply Z.ltb_lt | reflexivity].
  - destruct (Z.eqb_spec (id c) (id x)) as [Heq | Hne].
    + rewrite <- H. apply ascending_keys. simpl. now rewrite Heq.
    + apply ascending_cons in H. destruct H as [Hx Hs].
      apply ascending_cons. split; [| now apply IH].
      apply Forall_forall. intros y Hy. rewrite Forall_forall in Hx.
      destruct (In_put _ _ _ Hy) as [-> | Hin]; [lia | now apply Hx].
Qed.

Lemma delete_ascending (k : Z) (s : Store) :
  ascending s = true -> ascending (delete k s) = true.
Proof.
  induction s as [|x s IH]; intros H; [reflexivity |].
  apply ascending_cons in H. destruct H as [Hx Hs]. unfold delete. simpl.
  destruct (negb (id x =? k)); [| now apply IH].
  apply ascending_cons. split; [| now apply IH].
  apply Forall_forall. intros y Hy. apply filter_In in Hy.
  rewrite Forall_forall in Hx. now apply Hx.
Qed.

(** After [put], the key of the record occurs once, with that record. *)
Lemma withId_put (c : ClientEntry) (s : Store) :
  ascending s = true -> withId (id c) (put c s) = [c].
Proof.
  unfold withId. induction s as [|x s IH]; intros H.
  - simpl. now rewrite Z.eqb_refl.
  - apply ascending_cons in H. destruct H as [Hx Hs]. simpl.
    destruct (Z.ltb_spec (id c) (id x)) as [Hlt | Hge].
    + simpl. rewrite Z.eqb_refl. f_equal.
      destruct (Z.eqb_spec (id x) (id c)); [lia |].
      apply filter_none. eapply Forall_impl; [| exact Hx]. simpl.
      intros y Hy. destruct (Z.eqb_spec (id y) (id c)); [lia | reflexivity].
    + destruct (Z.eqb_spec (id c) (id x)) as [Heq | Hne].
      * simpl. rewrite Z.eqb_refl. f_equal.
        apply filter_none. eapply Forall_impl; [| exact Hx]. simpl.
        intros y Hy. destruct (Z.eqb_spec (id y) (id c)); [lia | reflexivity].
      * simpl. destruct (Z.eqb_spec (id x) (id c)); [lia |]. now apply IH.
Qed.

Lemma withId_delete (k : Z) (s : Store) : withId k (delete k s) = [].
Proof.
  unfold withId, delete. apply filter_none. apply Forall_forall.
  intros x Hx. apply filter_In in Hx. destruct Hx as [_ Hx].
  now apply negb_true_iff in Hx.
Qed.

End IdbFacts.

(* ================================================================== *)
(** * The maintenance sweeps                                           *)
(* ================================================================== *)

Module SweepFacts.
Import Idb IdbFacts.


(** The cursor of [deleteOldRecords], with [done] the records it has
    passed and kept. *)
Lemma deleteWalk_spec (cutoff : Z) (pending done : Store) (count : Z) :
  ascending (done ++ pending) = true ->
  deleteWalk cutoff pending (done ++ pending) count =
  (done ++ filter (fun e => negb (olderThan cutoff e)) pending,
   count + Z.of_nat (List.length (filter (olderThan cutoff) pending))).
Proof.
  revert done count; induction pending as [|e rest IH]; intros done count H.
  - simpl. now rewrite Z.add_0_r.
  - cbn [deleteWalk filter].
    change (timestamp e <? cutoff) with (olderThan cutoff e).
    destruct (olderThan cutoff e) eqn:Hold; cbn [negb].
    + rewrite (delete_at _ _ _ H), (IH _ _ (ascending_drop _ _ _ H)).
      cbn [List.length]. rewrite Nat2Z.inj_succ. f_equal. lia.
    + replace (done ++ e :: rest) with ((done ++ [e]) ++ rest) in *
        by (now rewrite <- app_assoc).
      rewrite (IH _ _ H). now rewrite <- app_assoc.
Qed.

Lemma id_stripIfOld (cutoff : Z) (e : ClientEntry) :
  id (stripIfOld cutoff e) = id e.
Proof. unfold stripIfOld. now destruct (oldWithPhoto cutoff e). Qed.

Lemma timestamp_stripIfOld (cutoff : Z) (e : ClientEntry) :
  timestamp (stripIfOld cutoff e) = timestamp e.
Proof. unfold stripIfOld. now destruct (oldWithPhoto cutoff e). Qed.

(** The cursor of [stripOldPhotos]. *)
Lemma stripWalk_spec (cutoff : Z) (pending done : Store) (count : Z) :
  ascending (done ++ pending) = true ->
  stripWalk cutoff pending (done ++ pending) count =
  (done ++ map (stripIfOld cutoff) pending,
   count + Z.of_nat (List.length (filter (oldWithPhoto cutoff) pending))).
Proof.
  revert done count; induction pending as [|e rest IH]; intros done count H.
  - simpl. now rewrite Z.add_0_r.
  - cbn [stripWalk filter map].
    change ((timestamp e <? cutoff) && hasPhoto e)
      with (oldWithPhoto cutoff e).
    destruct (oldWithPhoto cutoff e) eqn:Hold.
    + assert (Hs : stripIfOld cutoff e = withoutPhoto e)
        by (unfold stripIfOld; now rewrite Hold).
      rewrite Hs, (put_replace (withoutPhoto e) e done rest H eq_refl).
      replace (done ++ withoutPhoto e :: rest)
        with ((done ++ [withoutPhoto e]) ++ rest)
        by (now rewrite <- app_assoc).
      rewrite IH.
      * cbn [List.length]. rewrite Nat2Z.inj_succ, <- app_assoc.
        f_equal. lia.
      * rewrite <- H. apply ascending_keys.
        rewrite <- app_assoc, !map_app. reflexivity.
    + assert (Hs : stripIfOld cutoff e = e)
        by (unfold stripIfOld; now rewrite Hold).
      rewrite Hs.
      replace (done ++ e :: rest) with ((done ++ [e]) ++ rest) in *
        by (now rewrite <- app_assoc).
      rewrite (IH _ _ H). now rewrite <- app_assoc.
Qed.



Lemma ascending_strip (cutoff : Z) (s : Store) :
  ascending (map (stripIfOld cutoff) s) = ascending s.
Proof.
  apply ascending_keys. rewrite map_map. apply map_ext.
  intros e. apply id_stripIfOld.
Qed.

End SweepFacts.





(* ================================================================== *)
(** * [Array.prototype.sort] with [newestFirst]                        *)
(* ================================================================== *)

Module SortFacts.

Lemma sortInsert_perm {A} (compare : A -> A -> Z) (x : A) (l : list A) :
  Permutation (sortInsert compare x l) (x :: l).
Proof.
  induction l as [|y l IH]; simpl; [reflexivity |].
  destruct (compare x y <=? 0); [reflexivity |].
  rewrite IH. apply perm_swap.
Qed.

Lemma arraySort_perm {A} (compare : A -> A -> Z) (l : list A) :
  Permutation (arraySort compare l) l.
Proof.
  induction l as [|x l IH]; simpl; [reflexivity |].
  rewrite sortInsert_perm. now constructor.
Qed.

Lemma sortInsert_newestFirst (x : ClientEntry) (l : list ClientEntry) :
  newestFirstOrdered l -> newestFirstOrdered (sortInsert newestFirst x l).
Proof.
  unfold newestFirstOrdered.
  induction 1 as [|y l Hl IH Hy]; simpl.
  - repeat constructor.
  - unfold newestFirst at 1. destruct (Z.leb_spec (timestamp y - timestamp x) 0).
    + constructor; [now constructor |].
      constructor; [lia |].
      eapply Forall_impl; [| exact Hy]. simpl. intros z Hz. lia.
    + constructor; [exact IH |].
      eapply Permutation_Forall; [symmetry; apply sortInsert_perm |].
      constructor; [lia | exact Hy].
Qed.

Lemma arraySort_newestFirst (l : list ClientEntry) :
  newestFirstOrdered (arraySort newestFirst l).
Proof.
  induction l as [|x l IH]; simpl; [constructor |].
  now apply sortInsert_newestFirst.
Qed.

Lemma Permutation_filter {A} (f : A -> bool) (l l' : list A) :
  Permutation l l' -> Permutation (filter f l) (filter f l').
Proof.
  induction 1 as [| x l l' _ IH | x y l | l l' l'' _ IH1 _ IH2]; simpl.
  - constructor.
  - destruct (f x); [now constructor | exact IH].
  - destruct (f x), (f y); try reflexivity. apply perm_swap.
  - now transitivity (filter f l').
Qed.

(** Sorting keeps the records of a key when there is at most one. *)
Lemma withId_arraySort_single (k : Z) (l : list ClientEntry) (r : ClientEntry) :
  withId k l = [r] -> withId k (arraySort newestFirst l) = [r].
Proof.
  intros H. apply Permutation_length_1_inv. rewrite <- H. symmetry.
  apply Permutation_filter, arraySort_perm.
Qed.

Lemma withId_arraySort_none (k : Z) (l : list ClientEntry) :
  withId k l = [] -> withId k (arraySort newestFirst l) = [].
Proof.
  intros H. apply Permutation_nil. rewrite <- H. symmetry.
  apply Permutation_filter, arraySort_perm.
Qed.

End SortFacts.

(* ================================================================== *)
(** * Loading the ledger                                               *)
(* ================================================================== *)

(** What [loadData] shows, in every environment (C4): mounting never
    fails and shows no alert, and leaves both tiers as they are.  When the Primary reads
    succeed, the ledger is the records of the Primary tier, newest first by
    timestamp.  When the read of the client records fails, the ledger is
    exactly the contents of the Fallback tier, in the order in which they
    are stored; when that read fails too, the ledger is empty and the
    console is told.  When only the read of the backgrounds fails, the
    ledger is the Fallback contents if their key exists and the Primary
    records otherwise.  With no record in either tier the ledger is
    empty. *)
Lemma loadData_ledger (fx : Faults) (t : Tiers) :
  let s := freshSys t in
  let s' := after (loadData fx) s in
  let loaded := entries (ui s') in
  outcome (loadData fx) s = Resolved tt /\
  alerts (ui s') = [] /\
  tiers s' = t /\
  match outcome (getAllClients fx) s with
  | Resolved data =>
      match outcome (getAllBackgrounds fx) s with
      | Resolved _ =>
          loaded = data /\
          newestFirstOrdered loaded /\
          Permutation loaded (clients t)
      | Rejected _ =>
          match outcome (localStorageGet fx) s with
          | Resolved (Some l) => loaded = l
          | _ => loaded = data
          end
      | Pending => False
      end
  | Rejected _ =>
      match outcome (localStorageGet fx) s with
      | Resolved _ => loaded = backupContents t
      | Rejected _ =>
          loaded = [] /\
          In "Critical: Storage unavailable"%string (console (ui s'))
      | Pending => False
      end
  | Pending => False
  end /\
  (clients t = [] -> backupContents t = [] -> loaded = []).
Proof.
  destruct t as [store bgs bk].
  destruct bgs as [bgl|]; destruct bk as [bl|]; crack.
  all: repeat split;
    auto using SortFacts.arraySort_newestFirst, SortFacts.arraySort_perm.
  all: try (simpl; auto; fail).
  all: try (intros -> ?; reflexivity).
  all: try (intros _ H; cbn in H; now subst).
Qed.

(** C4, on the code: the ledger read from the Fallback tier is not put in
    order.  Two records are saved while the Primary tier is unavailable,
    the one with the later timestamp first (the clock was set back between
    the two); both are in the Fallback tier, the older in front, and that
    is the ledger [loadData] shows.  The same two records saved in the
    same order to the Primary tier are loaded newest first. *)
Theorem loadData_fallback_not_sorted :
  let older := sampleEntry 1 100 None in
  let newer := sampleEntry 2 200 None in
  let s1 := after (handleSaveEntry primaryUnavailable newer) (freshSys emptyTiers) in
  let s2 := after (handleSaveEntry primaryUnavailable older) (reload s1) in
  let loaded := entries (ui (after (loadData primaryUnavailable) (reload s2))) in
  let p1 := after (handleSaveEntry noFaults newer) (freshSys emptyTiers) in
  let p2 := after (handleSaveEntry noFaults older) (reload p1) in
  let loadedPrimary := entries (ui (after (loadData noFaults) (reload p2))) in
  (outcome (getAllClients primaryUnavailable) (reload s2) =
     Rejected (mkError "IndexedDB is not supported in this browser environment.") /\
   backupContents (tiers s2) = [older; newer] /\
   loaded = [older; newer] /\
   ~ newestFirstOrdered loaded) /\
  (loadedPrimary = [newer; older] /\ newestFirstOrdered loadedPrimary).
Proof.
  cbv zeta. split; [split; [reflexivity | split; [reflexivity |
                    split; [reflexivity |]]] |].
  - change (newestFirstOrdered [sampleEntry 1 100 None; sampleEntry 2 200 None]
            -> False).
    unfold newestFirstOrdered. intros H. inversion H as [|a l _ Hall]; subst.
    inversion Hall as [|b l' Hab _]; subst. simpl in Hab. lia.
  - split; [reflexivity |].
    change (newestFirstOrdered [sampleEntry 2 200 None; sampleEntry 1 100 None]).
    unfold newestFirstOrdered.
    repeat constructor; simpl; lia.
Qed.

(** The ledger of a first visit, with nothing stored, is empty. *)
Lemma loadData_ledger_witness :
  entries (ui (after (loadData noFaults) (freshSys emptyTiers))) = [].
Proof.
  pose proof (loadData_ledger noFaults emptyTiers) as H. cbv zeta in H.
  exact (proj2 (proj2 (proj2 (proj2 H))) eq_refl eq_refl).
Defined.

(* ================================================================== *)
(** * Save, then load                                                  *)
(* ================================================================== *)

Ltac same_failure :=
  repeat match goal with
  | H : Rejected _ = Rejected _ |- _ => injection H as H; try subst
  | H : Resolved _ = Resolved _ |- _ => injection H as H; try subst
  | H : Some _ = Some _ |- _ => injection H as H; try subst
  end.

(** C3, for a save and a load that the same tier serves.  When the
    Primary tier serves both, the loaded ledger holds the saved record
    once, and no other record of its key.  When the Primary tier fails
    both times with a failure that is no quota failure and the Fallback
    tier serves both, the same holds provided the Fallback tier held no
    record of that key before. *)
Theorem save_then_load_same_tier
  (fxs fxl : Faults) (r : ClientEntry) (s : Sys) :
  Idb.ascending (clients (tiers s)) = true ->
  let s1 := after (handleSaveEntry fxs r) s in
  let loaded := entries (ui (after (loadData fxl) (reload s1))) in
  (outcome (saveClient fxs r) s = Resolved tt ->
   (exists data, outcome (getAllClients fxl) (reload s1) = Resolved data) ->
   (exists bgs, outcome (getAllBackgrounds fxl) (reload s1) = Resolved bgs) ->
   outcome (handleSaveEntry fxs r) s = Resolved true /\
   withId (id r) loaded = [r]) /\
  (forall err,
   outcome (saveClient fxs r) s = Rejected err ->
   isQuotaFailure err = false ->
   outcome (saveToLocalBackup fxs r) s = Resolved true ->
   (exists e, outcome (getAllClients fxl) (reload s1) = Rejected e) ->
   (exists item, outcome (localStorageGet fxl) (reload s1) = Resolved item) ->
   withId (id r) (backupContents (tiers s)) = [] ->
   outcome (handleSaveEntry fxs r) s = Resolved true /\
   withId (id r) loaded = [r]).
Proof.
  intros Hasc. destruct_sys s. cbn in Hasc. split.
  - intros H1 [data H2] [bgl H3]. revert H1 H2 H3.
    destruct bgs; crack; intros; try discriminate; same_failure.
    all: split; [reflexivity |].
    all: now apply SortFacts.withId_arraySort_single, IdbFacts.withId_put.
  - intros err H1 Hq H2 [e H3] [item H4] Hnone. revert H1 H2 H3 H4 Hnone.
    destruct bk; crack; intros; try discriminate; same_failure;
      try congruence.
    all: split; [reflexivity |].
    all: unfold withId in *; cbn [filter]; rewrite Z.eqb_refl; congruence.
Qed.

Lemma save_then_load_same_tier_witness :
  let r := sampleEntry 7 100 None in
  withId 7 (entries (ui (after (loadData noFaults)
     (reload (after (handleSaveEntry noFaults r) (freshSys emptyTiers))))))
    = [r] /\
  withId 7 (entries (ui (after (loadData primaryUnavailable)
     (reload (after (handleSaveEntry primaryUnavailable r)
                (freshSys emptyTiers)))))) = [r].
Proof.
  pose proof (save_then_load_same_tier noFaults noFaults
                (sampleEntry 7 100 None) (freshSys emptyTiers) eq_refl) as H1.
  pose proof (save_then_load_same_tier primaryUnavailable primaryUnavailable
                (sampleEntry 7 100 None) (freshSys emptyTiers) eq_refl) as H2.
  cbv zeta in H1, H2. split.
  - refine (proj2 (proj1 H1 eq_refl _ _)); eexists; reflexivity.
  - refine (proj2 (proj2 H2 _ eq_refl eq_refl eq_refl _ _ eq_refl));
      eexists; reflexivity.
Defined.

(** C3, as it is stated, fails in two ways.  A record that the Fallback
    tier already holds is held twice after it is saved there again; and a
    record that went to the Fallback tier is not in a ledger that the
    Primary tier serves. *)
Lemma save_then_load_not_once :
  let r := sampleEntry 7 100 None in
  let saved := after (handleSaveEntry primaryUnavailable r) (freshSys emptyTiers) in
  let again := after (handleSaveEntry primaryUnavailable r) (reload saved) in
  (outcome (handleSaveEntry primaryUnavailable r) (reload saved) = Resolved true /\
   entries (ui (after (loadData primaryUnavailable) (reload again))) = [r; r]) /\
  (outcome (handleSaveEntry primaryUnavailable r) (freshSys emptyTiers)
     = Resolved true /\
   entries (ui (after (loadData noFaults) (reload saved))) = []).
Proof. cbv zeta. repeat split; reflexivity. Qed.

(* ================================================================== *)
(** * Saving without the photo                                         *)
(* ================================================================== *)

Lemma In_put_self (c : ClientEntry) (s : Store) : In c (Idb.put c s).
Proof.
  induction s as [|x s IH]; simpl; [now left |].
  destruct (id c <? id x); [now left |].
  destruct (id c =? id x); [now left | now right].
Qed.

Ltac in_ops :=
  let Hin := fresh "Hin" in
  intros ? Hin; cbn in Hin;
  repeat (destruct Hin as [Hin | Hin];
          [try discriminate; try (injection Hin as <-; eauto) |]);
  try contradiction.

(** C7, as "Save Without Photo" is written: the copy has no photo and
    every other field of the failed record; what is issued to the tiers is
    what the Primary save of that copy issues, so nothing goes to the
    Fallback tier and no record other than the copy is put.  When the
    Primary save succeeds the copy is stored and shown and the recovery
    modal is closed; when it is rejected, for whatever reason, both tiers
    stay as they are and the user is told that saving is still impossible;
    when it is never settled, nothing changes and nothing is told. *)
Theorem saveTextOnly_primary_only
  (fx : Faults) (failed : ClientEntry) (s : Sys) :
  let copy := withoutPhoto failed in
  let s' := after (handleSaveTextOnly fx failed) s in
  let ops := issuedSince s s' in
  (clientPhoto copy = None /\
   id copy = id failed /\
   timestamp copy = timestamp failed /\
   signatureImage copy = signatureImage failed /\
   uniqueCode copy = uniqueCode failed /\
   clientName copy = clientName failed /\
   phone copy = phone failed /\
   address copy = address failed /\
   servicePlan copy = servicePlan failed /\
   paymentDetails copy = paymentDetails failed) /\
  ops = issuedSince s (after (saveClient fx copy) s) /\
  existsb isFallbackOp ops = false /\
  (forall c, In (PrimaryPut c) ops -> c = copy) /\
  backup (tiers s') = backup (tiers s) /\
  match outcome (saveClient fx copy) s with
  | Resolved _ =>
      outcome (handleSaveTextOnly fx failed) s = Resolved tt /\
      clients (tiers s') = Idb.put copy (clients (tiers s)) /\
      In copy (clients (tiers s')) /\
      entries (ui s') = copy :: entries (ui s) /\
      showStorageModal (ui s') = false /\
      failedEntry (ui s') = None
  | Rejected _ =>
      outcome (handleSaveTextOnly fx failed) s = Resolved tt /\
      tiers s' = tiers s /\
      alerts (ui s') =
        alerts (ui s) ++ ["Still cannot save. Critical storage failure."%string]
  | Pending =>
      outcome (handleSaveTextOnly fx failed) s = Pending /\
      tiers s' = tiers s /\
      ui s' = ui s
  end.
Proof.
  destruct_sys s. split; [repeat split |]. crack; ops.
  all: repeat split; auto using In_put_self.
  all: in_ops.
Qed.

(** After the quota failure of the cascade, saving without the photo
    stores the copy. *)
Lemma saveTextOnly_primary_only_witness :
  let failed := sampleEntry 5 100 (Some "data:image/jpeg;base64,/9j/4AAQ"%string) in
  let s := after (handleSaveEntry primaryFullForPhotos failed)
             (freshSys emptyTiers) in
  let s' := after (handleSaveTextOnly primaryFullForPhotos failed) s in
  clients (tiers s') = [withoutPhoto failed] /\
  (forall c, In (PrimaryPut c) (issuedSince s s') -> c = withoutPhoto failed).
Proof.
  pose proof (saveTextOnly_primary_only primaryFullForPhotos
    (sampleEntry 5 100 (Some "data:image/jpeg;base64,/9j/4AAQ"%string))
    (after (handleSaveEntry primaryFullForPhotos
              (sampleEntry 5 100 (Some "data:image/jpeg;base64,/9j/4AAQ"%string)))
       (freshSys emptyTiers))) as H.
  cbv zeta in H.
  destruct H as [_ [_ [_ [Hput [_ H]]]]].
  exact (conj (proj1 (proj2 H)) Hput).
Defined.

(** C7, as it is stated, fails: "Save Without Photo" is not the save
    entry point with its cascade.  In a browser without IndexedDB whose
    LocalStorage has no room for a photo, the save of a record with a
    photo ends at the decision point.  "Save Without Photo" then reports a
    failure and leaves the Fallback tier alone, where [handleSaveEntry] on
    the same copy, from the same state, saves it to the Fallback tier. *)
Lemma saveTextOnly_has_no_cascade :
  let failed := sampleEntry 5 100 (Some "data:image/jpeg;base64,/9j/4AAQ"%string) in
  let fx := fallbackFullForPhotos in
  let s := after (handleSaveEntry fx failed) (freshSys emptyTiers) in
  let textOnly := after (handleSaveTextOnly fx failed) s in
  let cascade := after (handleSaveEntry fx (withoutPhoto failed)) s in
  (outcome (handleSaveEntry fx failed) (freshSys emptyTiers) = Resolved false /\
   failedEntry (ui s) = Some failed /\
   showStorageModal (ui s) = true /\
   alerts (ui s) = []) /\
  (outcome (handleSaveTextOnly fx failed) s = Resolved tt /\
   backup (tiers textOnly) = None /\
   issuedSince s textOnly = [PrimaryOpen] /\
   alerts (ui textOnly) = ["Still cannot save. Critical storage failure."%string]) /\
  (outcome (handleSaveEntry fx (withoutPhoto failed)) s = Resolved true /\
   backup (tiers cascade) = Some [withoutPhoto failed] /\
   issuedSince s cascade =
     [PrimaryOpen; FallbackGet; FallbackSet [withoutPhoto failed]]).
Proof. cbv zeta. repeat split; reflexivity. Qed.

(* ================================================================== *)
(** * Deleting a record                                                *)
(* ================================================================== *)

Lemma withId_filter_out (k : Z) (l : list ClientEntry) :
  withId k (filter (fun e => negb (id e =? k)) l) = [].
Proof. exact (IdbFacts.withId_delete k l). Qed.

(** C8, on the code.  When the Primary delete succeeds, the Primary tier
    and the ledger on screen hold no record of that key and nothing is
    reported, whether the removal from the Fallback tier succeeds or is
    swallowed; a ledger that the Primary tier serves afterwards holds no
    record of that key, and neither does any ledger loaded after a
    removal from the Fallback tier that succeeded.  When the Primary
    delete is rejected, one failure is reported and both tiers and the
    ledger on screen stay as they are.  When the transaction of the
    Primary delete aborts with no error event, the record remains and no
    failure is reported: [deleteClient] does not listen to [onabort] and
    the handler never returns. *)
Theorem delete_then_load (fx fxl : Faults) (k : Z) (s : Sys) :
  let s1 := after (handleDeleteEntry fx k) s in
  let result := outcome (handleDeleteEntry fx k) s in
  let loaded := entries (ui (after (loadData fxl) (reload s1))) in
  match outcome (deleteClient fx k) s with
  | Resolved _ =>
      result = Resolved tt /\
      clients (tiers s1) = Idb.delete k (clients (tiers s)) /\
      withId k (clients (tiers s1)) = [] /\
      withId k (entries (ui s1)) = [] /\
      alerts (ui s1) = alerts (ui s) /\
      match outcome (filterLocalBackup fx k) s with
      | Resolved _ =>
          backup (tiers s1) =
            Some (filter (fun e => negb (id e =? k)) (backupContents (tiers s))) /\
          withId k loaded = []
      | Rejected _ =>
          backup (tiers s1) = backup (tiers s) /\
          ((exists data, outcome (getAllClients fxl) (reload s1) = Resolved data) ->
           (exists bgl, outcome (getAllBackgrounds fxl) (reload s1) = Resolved bgl) ->
           withId k loaded = [])
      | Pending => False
      end
  | Rejected _ =>
      result = Resolved tt /\
      tiers s1 = tiers s /\
      entries (ui s1) = entries (ui s) /\
      alerts (ui s1) = alerts (ui s) ++ ["Error deleting record"%string]
  | Pending =>
      result = Pending /\
      tiers s1 = tiers s /\
      ui s1 = ui s
  end /\
  let r := sampleEntry 7 100 None in
  let shown := after (loadData noFaults) (freshSys (mkTiers [r] (Some []) None)) in
  let left := after (handleDeleteEntry deleteAbortsAtCommit 7) shown in
  outcome (handleDeleteEntry deleteAbortsAtCommit 7) shown = Pending /\
  alerts (ui left) = [] /\
  clients (tiers left) = [r] /\
  entries (ui left) = [r].
Proof.
  split.
  - destruct_sys s. destruct bgs; destruct bk; crack.
    all: repeat split;
      auto using IdbFacts.withId_delete, withId_filter_out,
        SortFacts.withId_arraySort_none.
    all: try (intros [? ?] [? ?]; discriminate).
    all: try (intros _ _).
    all: auto using IdbFacts.withId_delete, withId_filter_out,
        SortFacts.withId_arraySort_none.
  - vm_compute. repeat split.
Qed.

(** The removal from the Fallback tier fails and is swallowed; the
    ledger that the Primary tier serves afterwards is without the
    record. *)
Lemma delete_then_load_witness :
  let r := sampleEntry 7 100 None in
  let s := freshSys (mkTiers [r] (Some []) (Some [r])) in
  let s1 := after (handleDeleteEntry fallbackReadOnly 7) s in
  outcome (handleDeleteEntry fallbackReadOnly 7) s = Resolved tt /\
  alerts (ui s1) = [] /\
  withId 7 (entries (ui (after (loadData noFaults) (reload s1)))) = [].
Proof.
  pose proof (delete_then_load fallbackReadOnly noFaults 7
    (freshSys (mkTiers [sampleEntry 7 100 None] (Some [])
                 (Some [sampleEntry 7 100 None])))) as H.
  cbv zeta in H. destruct H as [H _].
  destruct H as [Hres [_ [_ [_ [Halerts [_ Hload]]]]]].
  refine (conj Hres (conj Halerts (Hload _ _))); eexists; reflexivity.
Defined.

(* ================================================================== *)
(** * Identifiers and timestamps                                       *)
(* ================================================================== *)

(** C9, first half, on the code: two records created five milliseconds
    apart get the same [id] when the first draws 5 and the second draws 0;
    saved one after the other, the second replaces the first in the
    Primary tier. *)
Theorem newEntry_id_collision :
  let first :=
    newEntry 1760000000000 5 "YATRA-07KX2A"
      (mkFormData "Asha Devi" "9000000000" "Mathura" "Yamuna Pujan" "Paid")
      None "" in
  let second :=
    newEntry 1760000000005 0 "YATRA-07M3QZ"
      (mkFormData "Ravi Kumar" "9111111111" "Vrindavan" "Chappan Bhog" "Due")
      None "" in
  let s1 := after (handleSaveEntry noFaults first) (freshSys emptyTiers) in
  let s2 := after (handleSaveEntry noFaults second) s1 in
  timestamp first <> timestamp second /\
  clientName first <> clientName second /\
  id first = id second /\
  outcome (handleSaveEntry noFaults first) (freshSys emptyTiers) = Resolved true /\
  outcome (handleSaveEntry noFaults second) s1 = Resolved true /\
  clients (tiers s1) = [first] /\
  clients (tiers s2) = [second].
Proof. cbv zeta. repeat split; try reflexivity; discriminate. Qed.

(** C9, second half: the sweep that strips photos leaves the [id] and the
    [timestamp] of every record as they are, and the sweep that deletes
    leaves the records it keeps untouched. *)
Lemma sweeps_keep_id_and_timestamp (fx : Faults) (now days : Z) (s : Sys) :
  Idb.ascending (clients (tiers s)) = true ->
  let stripped := clients (tiers (after (stripOldPhotos fx now days) s)) in
  let pruned := clients (tiers (after (deleteOldRecords fx now days) s)) in
  map id stripped = map id (clients (tiers s)) /\
  map timestamp stripped = map timestamp (clients (tiers s)) /\
  incl pruned (clients (tiers s)).
Proof.
  intros Hasc. destruct_sys s. cbn in Hasc. cbv zeta.
  unfold after, stripOldPhotos, deleteOldRecords. crack.
  all: rewrite ?(SweepFacts.stripWalk_spec _ store [] 0 Hasc),
               ?(SweepFacts.deleteWalk_spec _ store [] 0 Hasc); red_m.
  all: cbn [app]; rewrite ?map_map.
  all: repeat split;
    try (apply map_ext; intros e;
         first [apply SweepFacts.id_stripIfOld
               | apply SweepFacts.timestamp_stripIfOld]);
    try apply incl_refl; try apply incl_filter.
Qed.

(* ================================================================== *)
(** * Background images                                                *)
(* ================================================================== *)

(** C10, on the code: what [getAllBackgrounds] settles with.  A database
    that cannot be opened and a missing object store give the empty list;
    a read request that errs rejects the promise with the error of the
    request, as with [backgroundsReadFails]. *)
Theorem getAllBackgrounds_outcome (fx : Faults) (s : Sys) :
  outcome (getAllBackgrounds fx) s =
    match openFailure fx with
    | Some _ => Resolved []
    | None =>
        match backgrounds (tiers s) with
        | None => Resolved []
        | Some l =>
            match bgGetAllFault fx with
            | Some e => Rejected e
            | None => Resolved l
            end
        end
    end /\
  outcome (getAllBackgrounds backgroundsReadFails) (freshSys emptyTiers)
    = Rejected unknownError /\
  isQuotaFailure unknownError = false.
Proof.
  split; [| split; reflexivity].
  destruct_sys s. destruct bgs; crack; reflexivity.
Qed.

(* ================================================================== *)
(** * Further properties of the Primary tier                           *)
(* ================================================================== *)

(** The same unfolding as [red_m], with the handlers of the backgrounds
    and of the recovery modal. *)
Ltac red_x :=
  cbv beta iota zeta delta
    [outcome after handleSaveEntry saveToLocalBackup openRecoveryModal
     handleDeleteEntry removeFromLocalBackup filterLocalBackup loadData
     onSuccess handleSaveTextOnly saveClient deleteClient getAllClients
     getAllBackgrounds openDB stripOldPhotos deleteOldRecords
     localStorageGet localStorageGetOrEmpty localStorageSet issuedSince
     reload initialUi freshSys backupContents
     saveBackground clearBackgrounds setBackgrounds handleClearBackgrounds
     uploadOne
     refreshData onClose handleOptimizeImages handleDeleteOld
     bind tryCatch tryAwaitThenReturn ret throw never issue guarded committed
     getTiers setTiers setClients modifyUi setEntries setBgImages
     setFailedEntry setShowStorageModal alert consoleLog
     fst snd tiers ui journal entries bgImages failedEntry showStorageModal
     alerts console clients backgrounds backup].

Ltac crack_x :=
  repeat (red_x;
    match goal with
    | |- context [match ?w with Reported _ => _ | Aborted => _ end] =>
        is_var w; destruct w
    | |- context [match openFailure ?fx with _ => _ end] =>
        destruct (openFailure fx) eqn:?
    | |- context [match putFault ?fx ?c with _ => _ end] =>
        destruct (putFault fx c) eqn:?
    | |- context [match getAllFault ?fx with _ => _ end] =>
        destruct (getAllFault fx) eqn:?
    | |- context [match deleteFault ?fx ?k with _ => _ end] =>
        destruct (deleteFault fx k) eqn:?
    | |- context [match cursorFault ?fx with _ => _ end] =>
        destruct (cursorFault fx) eqn:?
    | |- context [match bgGetAllFault ?fx with _ => _ end] =>
        destruct (bgGetAllFault fx) eqn:?
    | |- context [match lsGetFault ?fx with _ => _ end] =>
        destruct (lsGetFault fx) eqn:?
    | |- context [match lsSetFault ?fx ?l with _ => _ end] =>
        destruct (lsSetFault fx l) eqn:?
    | |- context [match bgPutFault ?bx ?b with _ => _ end] =>
        destruct (bgPutFault bx b) eqn:?
    | |- context [match bgClearFault ?bx with _ => _ end] =>
        destruct (bgClearFault bx) eqn:?
    | |- context [if isQuotaError ?e || messageMentionsQuota ?e then _ else _] =>
        change (isQuotaError e || messageMentionsQuota e)
          with (isQuotaFailure e);
        destruct (isQuotaFailure e) eqn:?
    end);
  red_x.

Module StoreFacts.
Import Idb IdbFacts.

Lemma filter_ascending (f : ClientEntry -> bool) (s : Store) :
  ascending s = true -> ascending (filter f s) = true.
Proof.
  induction s as [|x s IH]; intros H; [reflexivity |].
  apply ascending_cons in H. destruct H as [Hx Hs]. simpl.
  destruct (f x); [| now apply IH].
  apply ascending_cons. split; [| now apply IH].
  apply Forall_forall. intros y Hy. apply filter_In in Hy.
  rewrite Forall_forall in Hx. now apply Hx.
Qed.

Lemma withId_put_other (k : Z) (c : ClientEntry) (s : Store) :
  k <> id c -> withId k (put c s) = withId k s.
Proof.
  intros Hk. unfold withId. induction s as [|x s IH]; simpl.
  - destruct (Z.eqb_spec (id c) k); [congruence | reflexivity].
  - destruct (id c <? id x).
    + simpl. destruct (Z.eqb_spec (id c) k); [congruence | reflexivity].
    + destruct (Z.eqb_spec (id c) (id x)) as [Heq | Hne].
      * simpl. destruct (Z.eqb_spec (id c) k); [congruence |].
        destruct (Z.eqb_spec (id x) k); [congruence | reflexivity].
      * simpl. now rewrite IH.
Qed.

Lemma withId_filter_other (k k' : Z) (l : list ClientEntry) :
  k' <> k ->
  withId k' (filter (fun e => negb (id e =? k)) l) = withId k' l.
Proof.
  intros Hk. unfold withId. induction l as [|x l IH]; simpl; [reflexivity |].
  destruct (Z.eqb_spec (id x) k) as [Hx | Hx]; simpl.
  - destruct (Z.eqb_spec (id x) k'); [congruence | exact IH].
  - destruct (id x =? k'); [now rewrite IH | exact IH].
Qed.

(** Deleting a key that no record has. *)
Lemma delete_absent (k : Z) (s : Store) :
  withId k s = [] -> delete k s = s.
Proof.
  unfold withId, delete. induction s as [|x s IH]; simpl; [reflexivity |].
  destruct (id x =? k); simpl; [discriminate |].
  intros H. now rewrite IH.
Qed.

(** A record of a new key goes between the smaller and the larger keys. *)
Lemma put_fresh (c : ClientEntry) (s : Store) :
  withId (id c) s = [] ->
  exists a b, s = a ++ b /\ put c s = a ++ c :: b.
Proof.
  unfold withId. induction s as [|x s IH]; simpl; intros H.
  - now exists [], [].
  - destruct (Z.eqb_spec (id x) (id c)) as [Hx | Hx]; [discriminate |].
    destruct (id c <? id x).
    + now exists [], (x :: s).
    + destruct (Z.eqb_spec (id c) (id x)); [congruence |].
      destruct (IH H) as [a [b [-> Hput]]].
      exists (x :: a), b. simpl. now rewrite Hput.
Qed.

Lemma delete_put_fresh (c : ClientEntry) (s : Store) :
  withId (id c) s = [] -> delete (id c) (put c s) = s.
Proof.
  intros H. destruct (put_fresh c s H) as [a [b [-> Hput]]].
  rewrite Hput. unfold delete. rewrite filter_app. simpl.
  rewrite Z.eqb_refl. simpl. rewrite <- filter_app.
  now apply delete_absent.
Qed.

End StoreFacts.

(** X1: every operation on the client records keeps the keys of the
    Primary tier strictly ascending, so that no two records share an id,
    whatever the environment does. *)
Theorem primary_keys_stay_ascending
  (fx : Faults) (now days k : Z) (c : ClientEntry) (s : Sys) :
  Idb.ascending (clients (tiers s)) = true ->
  Idb.ascending (clients (tiers (after (saveClient fx c) s))) = true /\
  Idb.ascending (clients (tiers (after (deleteClient fx k) s))) = true /\
  Idb.ascending (clients (tiers (after (stripOldPhotos fx now days) s))) = true /\
  Idb.ascending (clients (tiers (after (deleteOldRecords fx now days) s))) = true /\
  Idb.ascending (clients (tiers (after (handleSaveEntry fx c) s))) = true /\
  Idb.ascending (clients (tiers (after (handleDeleteEntry fx k) s))) = true /\
  Idb.ascending (clients (tiers (after (handleSaveTextOnly fx c) s))) = true.
Proof.
  intros Hasc. destruct_sys s. cbn in Hasc.
  repeat split; crack_x;
    rewrite ?(SweepFacts.stripWalk_spec _ store [] 0 Hasc),
            ?(SweepFacts.deleteWalk_spec _ store [] 0 Hasc); red_x;
    cbn [app];
    auto using IdbFacts.put_ascending, IdbFacts.delete_ascending,
               StoreFacts.filter_ascending.
  now rewrite SweepFacts.ascending_strip.
Qed.

Lemma primary_keys_stay_ascending_witness :
  let s := freshSys (mkTiers [sampleEntry 1 10 None; sampleEntry 5 20 None]
                       (Some []) None) in
  Idb.ascending
    (clients (tiers (after (saveClient noFaults (sampleEntry 3 30 None)) s)))
    = true.
Proof.
  exact (proj1 (primary_keys_stay_ascending noFaults 0 0 0
                  (sampleEntry 3 30 None)
                  (freshSys (mkTiers [sampleEntry 1 10 None;
                                      sampleEntry 5 20 None] (Some []) None))
                  eq_refl)).
Defined.

(** X2: a save and a delete touch the records of one key only.  For
    every other key, the Primary tier holds the same records after
    [saveClient] and after [handleDeleteEntry], and so does the Fallback
    tier after [handleDeleteEntry], whatever the environment does. *)
Theorem other_keys_are_untouched
  (fx : Faults) (k k' : Z) (c : ClientEntry) (s : Sys) :
  (k' <> id c ->
   withId k' (clients (tiers (after (saveClient fx c) s)))
     = withId k' (clients (tiers s))) /\
  (k' <> k ->
   withId k' (clients (tiers (after (handleDeleteEntry fx k) s)))
     = withId k' (clients (tiers s)) /\
   withId k' (backupContents (tiers (after (handleDeleteEntry fx k) s)))
     = withId k' (backupContents (tiers s))).
Proof.
  destruct_sys s. split.
  - intros Hk. crack_x; auto using StoreFacts.withId_put_other.
  - intros Hk. destruct bk; crack_x; unfold Idb.delete; split;
      auto using StoreFacts.withId_filter_other.
Qed.

Lemma other_keys_are_untouched_witness :
  let kept := sampleEntry 1 10 None in
  let s := freshSys (mkTiers [kept; sampleEntry 5 20 None] (Some [])
                       (Some [sampleEntry 5 20 None; kept])) in
  withId 1 (clients (tiers (after (handleDeleteEntry noFaults 5) s))) = [kept] /\
  withId 1 (backupContents (tiers (after (handleDeleteEntry noFaults 5) s)))
    = [kept].
Proof.
  pose proof (other_keys_are_untouched noFaults 5 1 (sampleEntry 5 20 None)
    (freshSys (mkTiers [sampleEntry 1 10 None; sampleEntry 5 20 None] (Some [])
                 (Some [sampleEntry 5 20 None; sampleEntry 1 10 None])))) as H.
  destruct H as [_ H].
  refine (H _). discriminate.
Defined.

(** X3: deleting an id that no record has is not an error.  With the
    Primary tier working, [handleDeleteEntry] resolves, shows no alert and
    leaves the Primary tier exactly as it was. *)
Theorem delete_of_missing_id_is_silent (fx : Faults) (k : Z) (s : Sys) :
  withId k (clients (tiers s)) = [] ->
  openFailure fx = None ->
  deleteFault fx k = None ->
  let s' := after (handleDeleteEntry fx k) s in
  outcome (deleteClient fx k) s = Resolved tt /\
  outcome (handleDeleteEntry fx k) s = Resolved tt /\
  clients (tiers s') = clients (tiers s) /\
  alerts (ui s') = alerts (ui s).
Proof.
  intros Hnone Hopen Hdel. destruct_sys s. cbn in Hnone.
  red_x. rewrite Hopen. red_x. rewrite Hdel.
  destruct bk; crack_x; repeat split;
    auto using StoreFacts.delete_absent.
Qed.

Lemma delete_of_missing_id_is_silent_witness :
  let s := freshSys (mkTiers [sampleEntry 1 10 None] (Some []) None) in
  clients (tiers (after (handleDeleteEntry noFaults 9) s))
    = [sampleEntry 1 10 None] /\
  alerts (ui (after (handleDeleteEntry noFaults 9) s)) = [].
Proof.
  pose proof (delete_of_missing_id_is_silent noFaults 9
    (freshSys (mkTiers [sampleEntry 1 10 None] (Some []) None))
    eq_refl eq_refl eq_refl) as H.
  cbv zeta in H. destruct H as [_ [_ [H1 H2]]]. exact (conj H1 H2).
Defined.

(** X4: saving a record of a new id and then deleting that id gives back
    the Primary tier as it was, record for record. *)
Theorem save_then_delete_restores (fx fx' : Faults) (c : ClientEntry) (s : Sys) :
  withId (id c) (clients (tiers s)) = [] ->
  outcome (saveClient fx c) s = Resolved tt ->
  outcome (deleteClient fx' (id c)) (after (saveClient fx c) s) = Resolved tt ->
  clients (tiers (after (deleteClient fx' (id c)) (after (saveClient fx c) s)))
    = clients (tiers s).
Proof.
  intros Hnone. destruct_sys s. cbn in Hnone.
  crack_x; try discriminate; intros _.
  all: crack_x; try discriminate; intros _.
  all: now apply StoreFacts.delete_put_fresh.
Qed.

Lemma save_then_delete_restores_witness :
  let s := freshSys (mkTiers [sampleEntry 1 10 None; sampleEntry 5 20 None]
                       (Some []) None) in
  let c := sampleEntry 3 30 None in
  clients (tiers (after (deleteClient noFaults 3) (after (saveClient noFaults c) s)))
    = [sampleEntry 1 10 None; sampleEntry 5 20 None].
Proof.
  exact (save_then_delete_restores noFaults noFaults (sampleEntry 3 30 None)
           (freshSys (mkTiers [sampleEntry 1 10 None; sampleEntry 5 20 None]
                        (Some []) None))
           eq_refl eq_refl eq_refl).
Defined.

Module OrderFacts.

Lemma sortInsert_stable (x : ClientEntry) (l : list ClientEntry) :
  StronglySorted
    (fun a b => timestamp a > timestamp b \/
                (timestamp a = timestamp b /\ id a < id b)) l ->
  Forall (fun y => id x < id y) l ->
  StronglySorted
    (fun a b => timestamp a > timestamp b \/
                (timestamp a = timestamp b /\ id a < id b))
    (sortInsert newestFirst x l).
Proof.
  induction 1 as [|y l Hl IH Hy]; intros Hid; simpl.
  - repeat constructor.
  - inversion Hid as [|? ? Hxy Hrest]; subst.
    unfold newestFirst at 1.
    destruct (Z.leb_spec (timestamp y - timestamp x) 0).
    + constructor; [now constructor |].
      constructor; [lia |].
      rewrite Forall_forall in *. intros z Hz.
      specialize (Hy z Hz). specialize (Hrest z Hz). simpl in *. lia.
    + constructor; [now apply IH |].
      eapply Permutation_Forall;
        [symmetry; apply SortFacts.sortInsert_perm |].
      constructor; [lia | exact Hy].
Qed.

Lemma arraySort_stable (s : Store) :
  Idb.ascending s = true ->
  StronglySorted
    (fun a b => timestamp a > timestamp b \/
                (timestamp a = timestamp b /\ id a < id b))
    (arraySort newestFirst s).
Proof.
  induction s as [|x s IH]; intros H; simpl; [constructor |].
  apply IdbFacts.ascending_cons in H. destruct H as [Hx Hs].
  apply sortInsert_stable; [now apply IH |].
  eapply Permutation_Forall; [symmetry; apply SortFacts.arraySort_perm |].
  exact Hx.
Qed.

Lemma sortInsert_newest (r : ClientEntry) (l : list ClientEntry) :
  Forall (fun e => timestamp e <= timestamp r) l ->
  sortInsert newestFirst r l = r :: l.
Proof.
  destruct 1 as [|y l Hy _]; simpl; [reflexivity |].
  unfold newestFirst.
  destruct (Z.leb_spec (timestamp y - timestamp r) 0); [reflexivity | lia].
Qed.

(** The newest record comes first, wherever it is stored. *)
Lemma arraySort_newest (r : ClientEntry) (a b : list ClientEntry) :
  Forall (fun e => timestamp e < timestamp r) a ->
  Forall (fun e => timestamp e <= timestamp r) b ->
  arraySort newestFirst (a ++ r :: b) = r :: arraySort newestFirst (a ++ b).
Proof.
  intros Ha Hb. induction Ha as [|x a Hx _ IH]; simpl.
  - apply sortInsert_newest.
    eapply Permutation_Forall; [symmetry; apply SortFacts.arraySort_perm |].
    exact Hb.
  - rewrite IH. simpl. unfold newestFirst at 1.
    destruct (Z.leb_spec (timestamp r - timestamp x) 0); [lia | reflexivity].
Qed.

End OrderFacts.

(** X5: the order of the ledger that [getAllClients] returns is fully
    determined: later timestamps first, and records of one timestamp by
    ascending id. *)
Theorem getAllClients_order (fx : Faults) (s : Sys) (data : list ClientEntry) :
  Idb.ascending (clients (tiers s)) = true ->
  outcome (getAllClients fx) s = Resolved data ->
  StronglySorted
    (fun a b => timestamp a > timestamp b \/
                (timestamp a = timestamp b /\ id a < id b)) data.
Proof.
  intros Hasc. destruct_sys s. cbn in Hasc.
  crack_x; intros H; try discriminate.
  injection H as <-. now apply OrderFacts.arraySort_stable.
Qed.

Lemma getAllClients_order_witness :
  let s := freshSys (mkTiers [sampleEntry 1 20 None; sampleEntry 2 30 None;
                              sampleEntry 3 20 None] (Some []) None) in
  outcome (getAllClients noFaults) s =
    Resolved [sampleEntry 2 30 None; sampleEntry 1 20 None;
              sampleEntry 3 20 None] /\
  StronglySorted
    (fun a b => timestamp a > timestamp b \/
                (timestamp a = timestamp b /\ id a < id b))
    [sampleEntry 2 30 None; sampleEntry 1 20 None; sampleEntry 3 20 None].
Proof.
  split; [reflexivity |].
  exact (getAllClients_order noFaults
           (freshSys (mkTiers [sampleEntry 1 20 None; sampleEntry 2 30 None;
                               sampleEntry 3 20 None] (Some []) None))
           _ eq_refl eq_refl).
Defined.

(** X6: the ledger on screen after a save is the ledger a reload would
    show.  When the screen shows what the Primary tier holds, and a record
    with a new id and a timestamp later than every stored one is saved to
    the Primary tier, the entries on screen are exactly what
    [getAllClients] returns afterwards. *)
Theorem saved_ledger_agrees_with_reload
  (fx fxl : Faults) (r : ClientEntry) (s : Sys) (data : list ClientEntry) :
  entries (ui s) = arraySort newestFirst (clients (tiers s)) ->
  withId (id r) (clients (tiers s)) = [] ->
  Forall (fun e => timestamp e < timestamp r) (clients (tiers s)) ->
  outcome (saveClient fx r) s = Resolved tt ->
  outcome (getAllClients fxl) (after (handleSaveEntry fx r) s) = Resolved data ->
  data = entries (ui (after (handleSaveEntry fx r) s)).
Proof.
  intros Hscreen Hnew Hlater. destruct_sys s. cbn in Hscreen, Hnew, Hlater.
  subst. crack_x; intros H; try discriminate; clear H.
  all: crack_x; intros H; try discriminate; injection H as <-.
  all: destruct (StoreFacts.put_fresh r store Hnew) as [a [b [-> ->]]].
  all: apply Forall_app in Hlater; destruct Hlater as [Ha Hb].
  all: apply OrderFacts.arraySort_newest; [exact Ha |].
  all: eapply Forall_impl; [| exact Hb]; simpl; intros; lia.
Qed.

Lemma saved_ledger_agrees_with_reload_witness :
  let s := mkSys (mkTiers [sampleEntry 1 20 None; sampleEntry 9 30 None]
                    (Some []) None)
             (mkUi [sampleEntry 9 30 None; sampleEntry 1 20 None] [] None false
                [] [])
             [] in
  let r := sampleEntry 5 40 None in
  entries (ui (after (handleSaveEntry noFaults r) s)) =
    [r; sampleEntry 9 30 None; sampleEntry 1 20 None].
Proof.
  symmetry.
  refine (saved_ledger_agrees_with_reload noFaults noFaults
    (sampleEntry 5 40 None)
    (mkSys (mkTiers [sampleEntry 1 20 None; sampleEntry 9 30 None]
              (Some []) None)
       (mkUi [sampleEntry 9 30 None; sampleEntry 1 20 None] [] None false [] [])
       [])
    _ eq_refl eq_refl _ eq_refl eq_refl).
  repeat constructor.
Defined.

(** X7: what [handleSaveEntry] returns says what it did.  It never
    rejects.  When it returns [true] the record was written to exactly one
    tier and put in front of the ledger on screen; when it returns
    [false] both tiers and the ledger on screen are as before, and so
    they are when it never returns. *)
Theorem save_result_matches_effect (fx : Faults) (r : ClientEntry) (s : Sys) :
  let s' := after (handleSaveEntry fx r) s in
  match outcome (handleSaveEntry fx r) s with
  | Resolved true =>
      entries (ui s') = r :: entries (ui s) /\
      backgrounds (tiers s') = backgrounds (tiers s) /\
      ((clients (tiers s') = Idb.put r (clients (tiers s)) /\
        backup (tiers s') = backup (tiers s)) \/
       (clients (tiers s') = clients (tiers s) /\
        backup (tiers s') = Some (r :: backupContents (tiers s))))
  | Resolved false =>
      tiers s' = tiers s /\ entries (ui s') = entries (ui s)
  | Rejected _ => False
  | Pending =>
      tiers s' = tiers s /\ entries (ui s') = entries (ui s)
  end.
Proof.
  destruct_sys s. destruct bk; crack_x; repeat split; auto.
Qed.

(* ================================================================== *)
(** * Background images                                                *)
(* ================================================================== *)

Module BgFacts.
Import BgStore.

Lemma ascii_compare_refl (c : ascii) : Ascii.compare c c = Eq.
Proof. unfold Ascii.compare. apply N.compare_refl. Qed.

Lemma compare_refl (a : string) : String.compare a a = Eq.
Proof.
  induction a as [|c a IH]; simpl; [reflexivity |].
  now rewrite ascii_compare_refl.
Qed.

Lemma ltb_irrefl (a : string) : String.ltb a a = false.
Proof. unfold String.ltb. now rewrite compare_refl. Qed.

Lemma compare_lt_trans (a b c : string) :
  String.compare a b = Lt -> String.compare b c = Lt ->
  String.compare a c = Lt.
Proof.
  revert b c; induction a as [|x a IH]; intros [|y b] [|z c]; simpl;
    try discriminate; auto.
  destruct (Ascii.compare x y) eqn:Hxy; try discriminate;
    destruct (Ascii.compare y z) eqn:Hyz; try discriminate.
  - apply Ascii.compare_eq_iff in Hxy, Hyz. subst.
    rewrite ascii_compare_refl. apply IH.
  - apply Ascii.compare_eq_iff in Hxy. subst. now rewrite Hyz.
  - apply Ascii.compare_eq_iff in Hyz. subst. now rewrite Hxy.
  - intros _ _. unfold Ascii.compare in *.
    rewrite N.compare_lt_iff in *.
    assert (H : (N_of_ascii x < N_of_ascii z)%N) by lia.
    apply N.compare_lt_iff in H. now rewrite H.
Qed.

Lemma ltb_trans (a b c : string) :
  String.ltb a b = true -> String.ltb b c = true -> String.ltb a c = true.
Proof.
  unfold String.ltb. intros Hab Hbc.
  destruct (String.compare a b) eqn:H1; try discriminate.
  destruct (String.compare b c) eqn:H2; try discriminate.
  now rewrite (compare_lt_trans _ _ _ H1 H2).
Qed.

Lemma ltb_not_eqb (a b : string) :
  String.ltb a b = true -> String.eqb b a = false.
Proof.
  intros H. apply String.eqb_neq. intros ->.
  rewrite ltb_irrefl in H. discriminate.
Qed.

Lemma bg_ascending_cons (x : BackgroundImage) (s : list BackgroundImage) :
  ascending (x :: s) = true <->
  Forall (fun y => String.ltb (bgId x) (bgId y) = true) s /\
  ascending s = true.
Proof.
  revert x; induction s as [|y s IH]; intros x.
  - simpl. split; [intros _; split; [constructor | reflexivity] | reflexivity].
  - change (ascending (x :: y :: s))
      with (String.ltb (bgId x) (bgId y) && ascending (y :: s)).
    rewrite andb_true_iff. split.
    + intros [Hxy Hs]. split; [| exact Hs].
      constructor; [exact Hxy |].
      apply IH in Hs. destruct Hs as [Hy _].
      eapply Forall_impl; [| exact Hy]. simpl. intros z Hz.
      now apply (ltb_trans _ _ _ Hxy).
    + intros [Hall Hs]. split; [now inversion Hall | exact Hs].
Qed.

Lemma withKey_none (k : string) (s : list BackgroundImage) :
  Forall (fun y => String.ltb k (bgId y) = true) s -> withKey k s = [].
Proof.
  intros H. unfold withKey. apply IdbFacts.filter_none.
  eapply Forall_impl; [| exact H]. simpl. intros y Hy.
  now apply ltb_not_eqb.
Qed.

(** After [put], the key of the image occurs once, with that image. *)
Lemma withKey_put (b : BackgroundImage) (s : list BackgroundImage) :
  ascending s = true -> withKey (bgId b) (put b s) = [b].
Proof.
  induction s as [|x s IH]; intros H.
  - unfold withKey. simpl. now rewrite String.eqb_refl.
  - apply bg_ascending_cons in H. destruct H as [Hx Hs]. simpl.
    destruct (String.ltb (bgId b) (bgId x)) eqn:Hlt.
    + change (withKey (bgId b) (b :: x :: s))
        with (if String.eqb (bgId b) (bgId b)
              then b :: withKey (bgId b) (x :: s)
              else withKey (bgId b) (x :: s)).
      rewrite String.eqb_refl. f_equal. apply withKey_none.
      constructor; [exact Hlt |].
      eapply Forall_impl; [| exact Hx]. simpl. intros y Hy.
      now apply (ltb_trans _ _ _ Hlt).
    + destruct (String.eqb (bgId b) (bgId x)) eqn:Heq.
      * apply String.eqb_eq in Heq.
        change (withKey (bgId b) (b :: s))
          with (if String.eqb (bgId b) (bgId b)
                then b :: withKey (bgId b) s else withKey (bgId b) s).
        rewrite String.eqb_refl. f_equal. apply withKey_none.
        now rewrite Heq.
      * change (withKey (bgId b) (x :: put b s))
          with (if String.eqb (bgId x) (bgId b)
                then x :: withKey (bgId b) (put b s)
                else withKey (bgId b) (put b s)).
        rewrite String.eqb_sym, Heq. now apply IH.
Qed.

End BgFacts.

(** X8: a background that [saveBackground] stored is listed once by a
    [getAllBackgrounds] that reads the database, and no other image has its
    id.  (When the database does not open for the read, the list is empty
    and not an error.) *)
Theorem saved_background_is_listed_once
  (fx fxl : Faults) (bx : BgFaults) (bg : BackgroundImage) (s : Sys)
  (stored data : list BackgroundImage) :
  backgrounds (tiers s) = Some stored ->
  BgStore.ascending stored = true ->
  outcome (saveBackground fx bx bg) s = Resolved tt ->
  openFailure fxl = None ->
  outcome (getAllBackgrounds fxl) (after (saveBackground fx bx bg) s)
    = Resolved data ->
  BgStore.withKey (bgId bg) data = [bg].
Proof.
  intros Hstored Hasc. destruct_sys s. cbn in Hstored. subst.
  crack_x; intros H1 H2 H3; try discriminate.
  all: injection H3 as <-; now apply BgFacts.withKey_put.
Qed.

Lemma saved_background_is_listed_once_witness :
  let old := mkBackgroundImage "1760000000000abc123" "data:image/png;base64,AAAA" in
  let bg := mkBackgroundImage "1760000000500k3j9x0" "data:image/png;base64,BBBB" in
  let s := freshSys (mkTiers [] (Some [old]) None) in
  outcome (getAllBackgrounds noFaults)
    (after (saveBackground noFaults (mkBgFaults (fun _ => None) None None) bg) s)
    = Resolved [old; bg] /\
  BgStore.withKey (bgId bg) [old; bg] = [bg].
Proof.
  split; [reflexivity |].
  exact (saved_background_is_listed_once noFaults noFaults
    (mkBgFaults (fun _ => None) None None)
    (mkBackgroundImage "1760000000500k3j9x0" "data:image/png;base64,BBBB")
    (freshSys (mkTiers []
       (Some [mkBackgroundImage "1760000000000abc123"
                "data:image/png;base64,AAAA"]) None))
    _ _ eq_refl eq_refl eq_refl eq_refl eq_refl).
Defined.

Module UploadFacts.

(** Whether an upload succeeds depends on the store being there, not on
    what it holds. *)
Lemma uploadFailure_store (fx : Faults) (bx : BgFaults) (t t' : Tiers)
  (img : BackgroundImage) :
  (backgrounds t = None <-> backgrounds t' = None) ->
  uploadFailure fx bx t img = uploadFailure fx bx t' img.
Proof.
  unfold uploadFailure. intros [H1 H2].
  destruct (openFailure fx); [reflexivity |].
  destruct (backgrounds t), (backgrounds t'); try reflexivity.
  - discriminate (H2 eq_refl).
  - discriminate (H1 eq_refl).
Qed.

(** One turn of the loop. *)
Lemma uploadOne_effect (fx : Faults) (bx : BgFaults) (img : BackgroundImage)
  (acc : list BackgroundImage) (s : Sys) :
  let s' := after (uploadOne fx bx img acc) s in
  outcome (uploadOne fx bx img acc) s =
    (if uploadHangs fx bx (tiers s) img then Pending
     else Resolved (if uploadSucceeds fx bx (tiers s) img
                    then acc ++ [img] else acc)) /\
  alerts (ui s') =
    alerts (ui s) ++
    (if uploadHitsQuota fx bx (tiers s) img
     then ["Storage full! Cannot add more background images."%string]
     else []) /\
  bgImages (ui s') = bgImages (ui s) /\
  entries (ui s') = entries (ui s) /\
  clients (tiers s') = clients (tiers s) /\
  backup (tiers s') = backup (tiers s) /\
  (backgrounds (tiers s) = None <-> backgrounds (tiers s') = None).
Proof.
  destruct_sys s.
  unfold uploadSucceeds, uploadHitsQuota, uploadHangs, uploadFailure.
  destruct bgs; crack_x;
    repeat match goal with
    | |- context [isQuotaError ?e] => destruct (isQuotaError e) eqn:?
    end; red_x.
  all: repeat split; auto using app_nil_r; try discriminate;
       try (symmetry; apply app_nil_r).
Qed.

Lemma uploadEach_effect (fx : Faults) (bx : BgFaults)
  (files : list BackgroundImage) :
  forall (acc : list BackgroundImage) (s : Sys),
  let s' := after (uploadEach fx bx files acc) s in
  outcome (uploadEach fx bx files acc) s =
    (if existsb (uploadHangs fx bx (tiers s)) files then Pending
     else Resolved (acc ++ filter (uploadSucceeds fx bx (tiers s)) files)) /\
  alerts (ui s') =
    alerts (ui s) ++
    map (fun _ => "Storage full! Cannot add more background images."%string)
        (filter (uploadHitsQuota fx bx (tiers s))
                (beforeHang fx bx (tiers s) files)) /\
  bgImages (ui s') = bgImages (ui s) /\
  entries (ui s') = entries (ui s) /\
  clients (tiers s') = clients (tiers s) /\
  backup (tiers s') = backup (tiers s) /\
  (backgrounds (tiers s) = None <-> backgrounds (tiers s') = None).
Proof.
  induction files as [|img rest IH]; intros acc s.
  - cbn. rewrite !app_nil_r. repeat split; auto.
  - pose proof (uploadOne_effect fx bx img acc s) as Hone.
    cbv zeta in Hone. destruct Hone as [H1 [H2 [H3 [H4 [H5 [H6 H7]]]]]].
    unfold outcome, after in *.
    change (uploadEach fx bx (img :: rest) acc s)
      with (bind (uploadOne fx bx img acc)
                 (fun pushed => uploadEach fx bx rest pushed) s).
    unfold bind at 1 2 3 4 5 6 7.
    destruct (uploadOne fx bx img acc s) as [r s1]. cbn [fst snd] in *.
    subst r. cbn [existsb beforeHang].
    destruct (uploadHangs fx bx (tiers s) img) eqn:Hhang.
    + cbn [orb fst snd filter map].
      assert (Hq : uploadHitsQuota fx bx (tiers s) img = false).
      { revert Hhang. unfold uploadHangs, uploadHitsQuota.
        destruct (uploadFailure fx bx (tiers s) img) as [[e|]|];
          try discriminate; reflexivity. }
      rewrite Hq in H2. repeat split; try congruence; tauto.
    + cbn [orb].
      pose proof (IH (if uploadSucceeds fx bx (tiers s) img
                      then acc ++ [img] else acc) s1) as Hrest.
      cbv zeta in Hrest. unfold outcome, after in Hrest.
      destruct Hrest as [R1 [R2 [R3 [R4 [R5 [R6 R7]]]]]].
      assert (Hsame : forall i,
                uploadFailure fx bx (tiers s1) i = uploadFailure fx bx (tiers s) i).
      { intros i. apply uploadFailure_store. symmetry. exact H7. }
      assert (Hhangs : forall l,
                existsb (uploadHangs fx bx (tiers s1)) l =
                existsb (uploadHangs fx bx (tiers s)) l).
      { intros l. induction l as [|i l IHl]; [reflexivity |].
        cbn [existsb]. unfold uploadHangs at 1 3. now rewrite Hsame, IHl. }
      assert (Hbefore : forall l,
                beforeHang fx bx (tiers s1) l = beforeHang fx bx (tiers s) l).
      { intros l. induction l as [|i l IHl]; [reflexivity |].
        cbn [beforeHang]. unfold uploadHangs at 1 2. now rewrite Hsame, IHl. }
      rewrite Hhangs in R1. rewrite Hbefore in R2.
      rewrite (filter_ext (uploadSucceeds fx bx (tiers s1))
                          (uploadSucceeds fx bx (tiers s))) in R1
        by (intros i; unfold uploadSucceeds; now rewrite Hsame).
      rewrite (filter_ext (uploadHitsQuota fx bx (tiers s1))
                          (uploadHitsQuota fx bx (tiers s))) in R2
        by (intros i; unfold uploadHitsQuota; now rewrite Hsame).
      cbn [filter map].
      repeat split; try congruence; try tauto.
      * rewrite R1. destruct (existsb (uploadHangs fx bx (tiers s)) rest);
          [reflexivity |].
        destruct (uploadSucceeds fx bx (tiers s) img);
          [now rewrite <- app_assoc | reflexivity].
      * rewrite R2, H2, <- app_assoc.
        destruct (uploadHitsQuota fx bx (tiers s) img); reflexivity.
Qed.


(** What [handleImageUpload] makes of its loop. *)
Lemma handleImageUpload_effect (fx : Faults) (bx : BgFaults)
  (files : list BackgroundImage) (s : Sys) :
  let s' := after (handleImageUpload fx bx files) s in
  alerts (ui s') =
    alerts (ui s) ++
    map (fun _ => "Storage full! Cannot add more background images."%string)
        (filter (uploadHitsQuota fx bx (tiers s))
                (beforeHang fx bx (tiers s) files)) /\
  entries (ui s') = entries (ui s) /\
  clients (tiers s') = clients (tiers s) /\
  backup (tiers s') = backup (tiers s) /\
  if existsb (uploadHangs fx bx (tiers s)) files
  then
    outcome (handleImageUpload fx bx files) s = Pending /\
    bgImages (ui s') = bgImages (ui s)
  else
    outcome (handleImageUpload fx bx files) s = Resolved tt /\
    bgImages (ui s') =
      bgImages (ui s) ++ filter (uploadSucceeds fx bx (tiers s)) files.
Proof.
  destruct files as [|img rest].
  - cbn. rewrite !app_nil_r. repeat split.
  - pose proof (uploadEach_effect fx bx (img :: rest) [] s) as H.
    cbv zeta in H. destruct H as [H1 [H2 [H3 [H4 [H5 [H6 _]]]]]].
    unfold outcome, after in *. unfold handleImageUpload, bind.
    destruct (uploadEach fx bx (img :: rest) [] s) as [r s1].
    cbn [fst snd] in *. subst r.
    destruct (existsb (uploadHangs fx bx (tiers s)) (img :: rest)).
    + cbn [fst snd]. repeat split; auto.
    + cbn [app].
      destruct s1 as [t1 [e1 b1 f1 m1 a1 c1] j1]. cbn in *. subst.
      repeat split; auto.
Qed.

End UploadFacts.


(** X10: when IndexedDB is missing or fails to open, or when the object
    store of the backgrounds does not exist, an upload adds no image and
    shows no alert, however many files are chosen: the failures go to the
    console only. *)
Theorem upload_without_store_is_silent
  (fx : Faults) (bx : BgFaults) (files : list BackgroundImage) (s : Sys) :
  dbOpen fx = OpenUnsupported \/ dbOpen fx = OpenRequestError \/
  (dbOpen fx = OpenOk /\ backgrounds (tiers s) = None) ->
  let s' := after (handleImageUpload fx bx files) s in
  outcome (handleImageUpload fx bx files) s = Resolved tt /\
  bgImages (ui s') = bgImages (ui s) /\
  alerts (ui s') = alerts (ui s).
Proof.
  intros Hwhy.
  assert (Hfail : forall i, uploadSucceeds fx bx (tiers s) i = false /\
                            uploadHitsQuota fx bx (tiers s) i = false /\
                            uploadHangs fx bx (tiers s) i = false).
  { intros i.
    unfold uploadSucceeds, uploadHitsQuota, uploadHangs, uploadFailure,
      openFailure.
    destruct Hwhy as [H | [H | [H Hb]]]; rewrite H; try rewrite Hb;
      repeat split; reflexivity. }
  assert (Hnone : existsb (uploadHangs fx bx (tiers s)) files = false).
  { induction files as [|i l IHl]; [reflexivity |].
    cbn [existsb]. rewrite IHl. now rewrite (proj2 (proj2 (Hfail i))). }
  pose proof (UploadFacts.handleImageUpload_effect fx bx files s) as H.
  cbv zeta in *. destruct H as [H1 [_ [_ [_ H5]]]].
  rewrite Hnone in H5. destruct H5 as [H5 H6].
  rewrite (IdbFacts.filter_none (uploadSucceeds fx bx (tiers s))) in H6
    by (apply Forall_forall; intros i _; apply Hfail).
  rewrite (IdbFacts.filter_none (uploadHitsQuota fx bx (tiers s))) in H1
    by (apply Forall_forall; intros i _; apply Hfail).
  cbn [map] in H1. rewrite app_nil_r in H1, H6.
  repeat split; assumption.
Qed.

Lemma upload_without_store_is_silent_witness :
  let files := [mkBackgroundImage "1760000000000abc123" "data:image/png;base64,AAAA";
                mkBackgroundImage "1760000000500k3j9x0" "data:image/png;base64,BBBB"] in
  let s' := after (handleImageUpload primaryUnavailable
                     (mkBgFaults (fun _ => None) None None) files)
              (freshSys emptyTiers) in
  bgImages (ui s') = [] /\ alerts (ui s') = [].
Proof.
  pose proof (upload_without_store_is_silent primaryUnavailable
    (mkBgFaults (fun _ => None) None None)
    [mkBackgroundImage "1760000000000abc123" "data:image/png;base64,AAAA";
     mkBackgroundImage "1760000000500k3j9x0" "data:image/png;base64,BBBB"]
    (freshSys emptyTiers) (or_introl eq_refl)) as H.
  cbv zeta in H. destruct H as [_ H]. exact H.
Defined.

(** X11: clearing the backgrounds is all or nothing.  When
    [clearBackgrounds] succeeds the store and the screen are empty and no
    alert is shown; when it is rejected one alert is shown and the store
    and the screen keep their images; when its transaction aborts with no
    error event the handler never returns, and the store and the screen
    keep their images with no alert.  The client records are never
    touched. *)
Theorem clear_backgrounds_effect (fx : Faults) (bx : BgFaults) (s : Sys) :
  let s' := after (handleClearBackgrounds fx bx) s in
  clients (tiers s') = clients (tiers s) /\
  backup (tiers s') = backup (tiers s) /\
  entries (ui s') = entries (ui s) /\
  match outcome (clearBackgrounds fx bx) s with
  | Resolved _ =>
      outcome (handleClearBackgrounds fx bx) s = Resolved tt /\
      backgrounds (tiers s') = Some [] /\
      bgImages (ui s') = [] /\
      alerts (ui s') = alerts (ui s)
  | Rejected _ =>
      outcome (handleClearBackgrounds fx bx) s = Resolved tt /\
      backgrounds (tiers s') = backgrounds (tiers s) /\
      bgImages (ui s') = bgImages (ui s) /\
      alerts (ui s') = alerts (ui s) ++ ["Error clearing backgrounds"%string]
  | Pending =>
      outcome (handleClearBackgrounds fx bx) s = Pending /\
      backgrounds (tiers s') = backgrounds (tiers s) /\
      bgImages (ui s') = bgImages (ui s) /\
      alerts (ui s') = alerts (ui s)
  end.
Proof.
  destruct_sys s. destruct bgs; crack_x; repeat split.
Qed.

(* ================================================================== *)
(** * The actions of the storage recovery modal                        *)
(* ================================================================== *)







(* ================================================================== *)
(** * The ledger view                                                  *)
(* ================================================================== *)



Module SearchFacts.
Import JsString JsStringFacts.

Lemma includes_lower_lower (text word : string) :
  includes (toLowerCase text) (toLowerCase word) = true <->
  containsUpToCase text word.
Proof.
  rewrite includes_spec. unfold containsUpToCase. split.
  - intros [x [y H]].
    destruct (toLowerCase_split _ _ _ H) as [before [rest [-> [_ Hrest]]]].
    destruct (toLowerCase_split _ _ _ Hrest) as [w [after [-> [Hw _]]]].
    now exists before, w, after.
  - intros [before [w [after [-> Hw]]]].
    exists (toLowerCase before), (toLowerCase after).
    now rewrite !toLowerCase_app, Hw.
Qed.

Lemma isEmptyString_true (s : string) :
  isEmptyString s = true <-> s = EmptyString.
Proof. destruct s; simpl; split; congruence. Qed.

End SearchFacts.

(** X16: what the search box of the ledger matches, for text without
    characters beyond ASCII.  An empty search shows every record.
    Otherwise a record is shown exactly when its name, its code or its
    plan contains the search text, whatever the case of the letters, or
    when its phone contains the search text put in lower case as it is.
    The address and the payment details are not searched. *)
Theorem search_matches
  (searchTerm : string) (entry : ClientEntry) :
  asciiOnly searchTerm = true ->
  asciiOnly (clientName entry) = true ->
  asciiOnly (uniqueCode entry) = true ->
  asciiOnly (servicePlan entry) = true ->
  (matchesSearch searchTerm entry = true <->
     searchTerm = EmptyString \/
     containsUpToCase (clientName entry) searchTerm \/
     (exists before after,
        phone entry =
          (before ++ JsString.toLowerCase searchTerm ++ after)%string) \/
     containsUpToCase (uniqueCode entry) searchTerm \/
     containsUpToCase (servicePlan entry) searchTerm) /\
  (forall startOfDay entries,
     filteredEntries startOfDay "" None None entries = entries).
Proof.
  intros _ _ _ _. split.
  - unfold matchesSearch. cbv zeta.
    rewrite !orb_true_iff, SearchFacts.isEmptyString_true,
      !SearchFacts.includes_lower_lower, JsStringFacts.includes_spec.
    tauto.
  - intros startOfDay entries. unfold filteredEntries.
    apply IdbFacts.filter_all, Forall_forall. intros e _. reflexivity.
Qed.

Lemma search_matches_witness :
  let e := sampleEntry 1 10 None in
  matchesSearch "ASHA" e = true /\ matchesSearch "mathura" e = false.
Proof.
  pose proof (search_matches "ASHA" (sampleEntry 1 10 None)
                eq_refl eq_refl eq_refl eq_refl) as H.
  split; [| reflexivity].
  apply (proj1 H). right. left.
  exists EmptyString, "Asha"%string, " Devi"%string. split; reflexivity.
Defined.

(* ================================================================== *)
(** * Face search                                                      *)
(* ================================================================== *)

Module FaceFacts.




End FaceFacts.




(* ================================================================== *)
(** * The generated plan                                               *)
(* ================================================================== *)

(** X19: "AI Generate" never loses what was typed.  With an empty plan
    no request is made, the form stays as it is and an alert asks for a
    ritual name.  Otherwise the new plan is the typed plan, two line
    breaks and a text that is never empty, also when the service fails or
    answers nothing; no other field of the form changes. *)
Theorem ai_generate_keeps_typed_plan
  (ai : string -> PlanReply) (formData : FormData) :
  let form' := fst (handleAiGenerate ai formData) in
  let shown := snd (handleAiGenerate ai formData) in
  formName form' = formName formData /\
  formPhone form' = formPhone formData /\
  formAddress form' = formAddress formData /\
  formPayment form' = formPayment formData /\
  generateRitualPlan ai (formPlan formData) <> EmptyString /\
  (formPlan formData = EmptyString ->
   form' = formData /\ shown <> None) /\
  (formPlan formData <> EmptyString ->
   shown = None /\
   formPlan form' =
     (formPlan formData ++ newline ++ newline
      ++ generateRitualPlan ai (formPlan formData))%string).
Proof.
  cbv zeta. unfold handleAiGenerate.
  assert (Hne : generateRitualPlan ai (formPlan formData) <> EmptyString).
  { unfold generateRitualPlan.
    destruct (ai (formPlan formData)) as [|[[|c t]|]]; discriminate. }
  destruct (formPlan formData) as [|c plan] eqn:Hplan; cbn.
  - repeat split; auto; try discriminate; now elim H.
  - repeat split; auto; discriminate.
Qed.

Lemma ai_generate_keeps_typed_plan_witness :
  let form := mkFormData "Asha Devi" "9000000000" "" "Yamuna Pujan" "" in
  formPlan (fst (handleAiGenerate (fun _ => PlanFails) form)) =
    ("Yamuna Pujan" ++ newline ++ newline ++
     "Error connecting to AI service. Please type details manually.")%string.
Proof.
  pose proof (ai_generate_keeps_typed_plan (fun _ => PlanFails)
    (mkFormData "Asha Devi" "9000000000" "" "Yamuna Pujan" "")) as H.
  cbv zeta in H. destruct H as [_ [_ [_ [_ [_ [_ H]]]]]].
  refine (proj2 (H _)). discriminate.
Defined.

(* ================================================================== *)
(** * The signature pad                                                *)
(* ================================================================== *)

Module PadFacts.

Lemma padRun_snoc (events : list PadEvent) (ev : PadEvent) :
  padRun (events ++ [ev]) = padStep (padRun events) ev.
Proof. unfold padRun. now rewrite fold_left_app. Qed.

End PadFacts.

(** X20: the signature of the form comes from the canvas or is empty.
    After any sequence of pointer events and clears, a pad that holds no
    stroke has given the form the empty signature, so that the record
    built on submit has no signature image; and a signature that is not
    empty is what the canvas showed at one of the times the pointer went
    up or left. *)
Theorem pad_signature_needs_a_stroke (events : list PadEvent) :
  let p := padRun events in
  (hasDrawn p = false -> signature p = EmptyString) /\
  (signature p <> EmptyString ->
   exists canvasUrl, In (StopDrawing canvasUrl) events /\
                     signature p = canvasUrl) /\
  (hasDrawn p = false ->
   forall now random1000 code formData photo,
     signatureImage (newEntry now random1000 code formData photo (signature p))
       = None).
Proof.
  cbv zeta.
  assert (Hinv : (hasDrawn (padRun events) = false ->
                  signature (padRun events) = EmptyString) /\
                 (signature (padRun events) <> EmptyString ->
                  exists canvasUrl, In (StopDrawing canvasUrl) events /\
                                    signature (padRun events) = canvasUrl)).
  { induction events as [|ev events [IH1 IH2]] using rev_ind.
    - split; [reflexivity | intros H; now elim H].
    - rewrite PadFacts.padRun_snoc.
      assert (Hkeep : forall url, In (StopDrawing url) events ->
                                  In (StopDrawing url) (events ++ [ev]))
        by (intros url H; apply in_or_app; now left).
      destruct ev as [| |url|]; unfold padStep.
      + cbn. split; [exact IH1 |].
        intros H. destruct (IH2 H) as [u [Hu Hs]]. exists u. auto.
      + destruct (isDrawing (padRun events)); cbn.
        * split; [discriminate |].
          intros H. destruct (IH2 H) as [u [Hu Hs]]. exists u. auto.
        * split; [exact IH1 |].
          intros H. destruct (IH2 H) as [u [Hu Hs]]. exists u. auto.
      + destruct (hasDrawn (padRun events)) eqn:Hd; cbn.
        * split; [discriminate |].
          intros _. exists url. split; [| reflexivity].
          apply in_or_app. right. now left.
        * split; [intros _; now apply IH1 |].
          intros H. destruct (IH2 H) as [u [Hu Hs]]. exists u. auto.
      + cbn. split; [reflexivity | intros H; now elim H]. }
  destruct Hinv as [H1 H2]. repeat split; auto.
  intros Hd now random1000 code formData photo.
  rewrite (H1 Hd). reflexivity.
Qed.

Lemma pad_signature_needs_a_stroke_witness :
  let events := [StartDrawing; Draw; StopDrawing "data:image/png;base64,iVBOR";
                 ClearCanvas; StartDrawing; StopDrawing "data:image/png;base64,AAAA"] in
  signature (padRun events) = EmptyString.
Proof.
  pose proof (pad_signature_needs_a_stroke
    [StartDrawing; Draw; StopDrawing "data:image/png;base64,iVBOR";
     ClearCanvas; StartDrawing; StopDrawing "data:image/png;base64,AAAA"]) as H.
  cbv zeta in H. exact (proj1 H eq_refl).
Defined.

(* ================================================================== *)
(** * A full Primary tier and a missing Primary tier                   *)
(* ================================================================== *)

(** X21: the way out of a full Primary tier.  When the Primary save of
    a record is rejected with a quota failure and the Primary tier takes
    its copy without the photo, [handleSaveEntry] followed by "Save Without Photo" leaves the
    copy as the only record of that id in the Primary tier, puts it in
    front of the ledger on screen, closes the recovery modal and forgets
    the failed entry; the Fallback tier is not written. *)
Theorem quota_then_text_only (fx : Faults) (r : ClientEntry) (s : Sys)
  (e : Failure) :
  Idb.ascending (clients (tiers s)) = true ->
  openFailure fx = None ->
  putFault fx r = Some (Reported e) ->
  isQuotaFailure e = true ->
  putFault fx (withoutPhoto r) = None ->
  let s1 := after (handleSaveEntry fx r) s in
  let s2 := after (handleSaveTextOnly fx r) s1 in
  outcome (handleSaveEntry fx r) s = Resolved false /\
  failedEntry (ui s1) = Some r /\
  showStorageModal (ui s1) = true /\
  withId (id r) (clients (tiers s2)) = [withoutPhoto r] /\
  entries (ui s2) = withoutPhoto r :: entries (ui s) /\
  showStorageModal (ui s2) = false /\
  failedEntry (ui s2) = None /\
  backup (tiers s2) = backup (tiers s).
Proof.
  intros Hasc Hopen Hput Hquota Hcopy. destruct_sys s. cbn in Hasc.
  unfold isQuotaFailure in Hquota.
  red_x. rewrite Hopen. red_x. rewrite Hput. red_x. rewrite Hquota. red_x.
  rewrite Hcopy. red_x.
  repeat split.
  exact (IdbFacts.withId_put (withoutPhoto r) store Hasc).
Qed.

Lemma quota_then_text_only_witness :
  let r := agedEntry 1760000000000 0 9 in
  let s := freshSys (mkTiers [agedEntry 1760000000000 10 3] (Some []) None) in
  let s2 := after (handleSaveTextOnly primaryFullForPhotos r)
              (after (handleSaveEntry primaryFullForPhotos r) s) in
  withId 9 (clients (tiers s2)) = [withoutPhoto r] /\
  failedEntry (ui s2) = None.
Proof.
  pose proof (quota_then_text_only primaryFullForPhotos
    (agedEntry 1760000000000 0 9)
    (freshSys (mkTiers [agedEntry 1760000000000 10 3] (Some []) None))
    quotaExceeded eq_refl eq_refl eq_refl eq_refl eq_refl) as H.
  cbv zeta in H. destruct H as [_ [_ [_ [H1 [_ [_ [H2 _]]]]]]].
  exact (conj H1 H2).
Defined.

(** X22: a browser without IndexedDB.  When the database is not
    supported or fails to open and LocalStorage works, every save goes to
    the Fallback tier: [handleSaveEntry] returns [true], the record is in
    front of the stored list and of the ledger on screen, the user is told
    that the record went to the local backup, and a ledger loaded
    afterwards in the same browser starts with that record. *)
Theorem save_without_indexeddb (fx : Faults) (r : ClientEntry) (s : Sys) :
  dbOpen fx = OpenUnsupported \/ dbOpen fx = OpenRequestError ->
  lsGetFault fx = None ->
  lsSetFault fx (r :: backupContents (tiers s)) = None ->
  let s' := after (handleSaveEntry fx r) s in
  outcome (handleSaveEntry fx r) s = Resolved true /\
  clients (tiers s') = clients (tiers s) /\
  backup (tiers s') = Some (r :: backupContents (tiers s)) /\
  entries (ui s') = r :: entries (ui s) /\
  alerts (ui s') =
    alerts (ui s) ++ ["⚠️ Saved to Local Backup (Database unavailable)."%string] /\
  showStorageModal (ui s') = showStorageModal (ui s) /\
  entries (ui (after (loadData fx) (reload s')))
    = r :: backupContents (tiers s).
Proof.
  intros Hdb Hget Hset. destruct_sys s.
  unfold backupContents in Hset. cbn in Hset.
  assert (Hopen : exists e, openFailure fx = Some e /\
                            isQuotaError e || messageMentionsQuota e = false).
  { unfold openFailure. destruct Hdb as [H | H]; rewrite H;
      eexists; split; reflexivity. }
  destruct Hopen as [e [Hopen Hother]].
  repeat (red_x; rewrite ?Hopen, ?Hother, ?Hget, ?Hset).
  red_x. repeat split.
Qed.

Lemma save_without_indexeddb_witness :
  let r := sampleEntry 7 100 None in
  let s' := after (handleSaveEntry primaryUnavailable r) (freshSys emptyTiers) in
  outcome (handleSaveEntry primaryUnavailable r) (freshSys emptyTiers)
    = Resolved true /\
  backup (tiers s') = Some [r].
Proof.
  pose proof (save_without_indexeddb primaryUnavailable
    (sampleEntry 7 100 None) (freshSys emptyTiers)
    (or_introl eq_refl) eq_refl eq_refl) as H.
  cbv zeta in H. destruct H as [H1 [_ [H2 _]]]. exact (conj H1 H2).
Defined.
